(** * hasp-csv-formatter: the conversion engine of [src/pages/index.js]

    A shallow embedding of the CSV-to-JSON converter component
    ([CSVToJSONConverter], the revision that carries the title pattern) and
    the properties of its line parser, section registry, title resolver,
    record builder and exporters.

    Conventions of the embedding.
    - A JavaScript string is a Rocq [string]; a character is one code unit
      below 256, so the white space of [trim] and of the regular expression
      class [\s] is the set 9-13, 32 and 160, and [toLowerCase] maps A-Z and
      the upper-case letters of the range 192-222.
    - A JavaScript object used as a dictionary whose key order is never
      observed ([columnMap], [row], [titleCounts], the flat row of the CSV
      exporter) is a [gmap]; an object that is serialised ([data] and its
      sections) is an ordered property list with the key order of the
      language.  Both hold the own properties only.  An assignment to the
      key [__proto__] creates no own property, and a read under a key that
      is no own property yields the member inherited from
      [Object.prototype], where the code can tell it from [undefined]: in
      [titleCounts] and in [rowObject[found]] of [resolveToken], and in
      [columnMap], where it routes as the default does.  The text of an
      inherited function is the one V8 prints.
    - [undefined] is [None].
    - React state is a record; a setter call is a record update, and a
      handler is a function from the state to the next state.
    - The clock of the runtime is a function from a tick counter to a
      [Date]; every [new Date()] / [Date.now()] reads it and advances the
      counter. *)

From Stdlib Require Import Ascii String List NArith Arith Lia Bool.
From Stdlib Require Import Numbers.DecimalString Numbers.DecimalNat.
From stdpp Require Import base option list gmap strings.

Open Scope string_scope.
Open Scope list_scope.
Open Scope nat_scope.

(** ** JavaScript string primitives *)

Module JS.

Definition dquote : ascii := "034"%char.
Definition LF : ascii := "010"%char.
Definition CR : ascii := "013"%char.

(** White space of [String.prototype.trim] and of [\s]. *)
Definition is_space (c : ascii) : bool :=
  match N_of_ascii c with
  | 9 | 10 | 11 | 12 | 13 | 32 | 160 => true
  | _ => false
  end%N.

(** The class [\w]: letters, digits and the underscore. *)
Definition is_word (c : ascii) : bool :=
  let n := N_of_ascii c in
  ((48 <=? n) && (n <=? 57) || (65 <=? n) && (n <=? 90)
   || (97 <=? n) && (n <=? 122) || (n =? 95))%N.

Definition lower_char (c : ascii) : ascii :=
  let n := N_of_ascii c in
  if ((65 <=? n) && (n <=? 90)
      || (192 <=? n) && (n <=? 222) && negb (n =? 215))%N
  then ascii_of_N (n + 32) else c.

Fixpoint toLowerCase (s : string) : string :=
  match s with
  | EmptyString => EmptyString
  | String c r => String (lower_char c) (toLowerCase r)
  end.

Fixpoint trimStart (s : string) : string :=
  match s with
  | EmptyString => EmptyString
  | String c r => if is_space c then trimStart r else s
  end.

Fixpoint trimEnd (s : string) : string :=
  match s with
  | EmptyString => EmptyString
  | String c r =>
      match trimEnd r with
      | EmptyString => if is_space c then EmptyString else String c EmptyString
      | r' => String c r'
      end
  end.

Definition trim (s : string) : string := trimEnd (trimStart s).

(** [s.trim().length > 0] *)
Definition nonblank (s : string) : bool :=
  match trim s with EmptyString => false | _ => true end.

(** [s.split(sep)] for a separator of one character. *)
Fixpoint split_on (sep : ascii) (s : string) : list string :=
  match s with
  | EmptyString => [EmptyString]
  | String c r =>
      if (c =? sep)%char then EmptyString :: split_on sep r
      else match split_on sep r with
           | x :: xs => String c x :: xs
           | [] => [String c EmptyString]
           end
  end.

(** [l.join(sep)] *)
Fixpoint join (sep : string) (l : list string) : string :=
  match l with
  | [] => EmptyString
  | [x] => x
  | x :: xs => x +:+ sep +:+ join sep xs
  end.

(** [s.replace(/\r\n/g, "\n")] *)
Fixpoint replace_crlf (s : string) : string :=
  match s with
  | EmptyString => EmptyString
  | String c r =>
      match r with
      | String c' r' =>
          if ((c =? CR) && (c' =? LF))%char then String LF (replace_crlf r')
          else String c (replace_crlf r)
      | EmptyString => String c EmptyString
      end
  end.

(** [s.replace(/\s+/g, rep)]: every maximal run of white space becomes
    one [rep]. *)
Fixpoint replace_spaces_go (rep : string) (inrun : bool) (s : string) : string :=
  match s with
  | EmptyString => EmptyString
  | String c r =>
      if is_space c
      then (if inrun then replace_spaces_go rep true r
            else rep +:+ replace_spaces_go rep true r)
      else String c (replace_spaces_go rep false r)
  end.
Definition replace_spaces (rep s : string) : string :=
  replace_spaces_go rep false s.

(** [s.replace(/c/g, "")] for a class of characters [drop]. *)
Fixpoint remove_chars (drop : ascii -> bool) (s : string) : string :=
  match s with
  | EmptyString => EmptyString
  | String c r =>
      if drop c then remove_chars drop r else String c (remove_chars drop r)
  end.

(** The replacement of [csvEscape]: every double quote of [s] is written
    twice. *)
Fixpoint double_quotes (s : string) : string :=
  match s with
  | EmptyString => EmptyString
  | String c r =>
      if (c =? dquote)%char then String dquote (String dquote (double_quotes r))
      else String c (double_quotes r)
  end.

(** [s.split(raw).join(val)] for a non-empty [raw]: the occurrences of
    [raw], found left to right without overlap, become [val].  [skip]
    counts the characters of a found occurrence still to pass over. *)
Fixpoint split_join_go (raw val : string) (skip : nat) (s : string) : string :=
  match s with
  | EmptyString => EmptyString
  | String c r =>
      match skip with
      | S k => split_join_go raw val k r
      | O =>
          if String.prefix raw s
          then val +:+ split_join_go raw val (String.length raw - 1) r
          else String c (split_join_go raw val 0 r)
      end
  end.
Definition split_join (raw val s : string) : string :=
  split_join_go raw val 0 s.

(** [s.startsWith(p)] and [s.slice(n)] *)
Definition startsWith (p s : string) : bool := String.prefix p s.

Fixpoint slice_from (n : nat) (s : string) : string :=
  match n, s with
  | O, _ => s
  | S k, String _ r => slice_from k r
  | S _, EmptyString => EmptyString
  end.

Fixpoint drop_last (s : string) : string :=
  match s with
  | EmptyString => EmptyString
  | String c EmptyString => EmptyString
  | String c r => String c (drop_last r)
  end.

(** [raw.slice(1, -1)] *)
Definition slice_1_m1 (raw : string) : string := drop_last (slice_from 1 raw).

(** [String(n)] for a non-negative integer. *)
Definition String_of_nat (n : nat) : string :=
  NilEmpty.string_of_uint (Nat.to_uint n).

(** [s.padStart(2, "0")] *)
Definition padStart2 (s : string) : string :=
  match String.length s with
  | 0 => "00" +:+ s
  | 1 => "0" +:+ s
  | _ => s
  end.

(** [n.toString(36)] for a non-negative integer. *)
Definition digit36 (d : N) : ascii :=
  if (d <? 10)%N then ascii_of_N (48 + d) else ascii_of_N (87 + d).

Fixpoint toString36_go (fuel : nat) (n : N) (acc : string) : string :=
  match fuel with
  | O => acc
  | S f =>
      let acc' := String (digit36 (n mod 36)) acc in
      if (n / 36 =? 0)%N then acc' else toString36_go f (n / 36)%N acc'
  end.
Definition toString36 (n : N) : string :=
  toString36_go (S (N.to_nat (N.log2 n))) n EmptyString.

(** All matches of [/\{([^\}]+)\}/g], each with its braces.
    [span_to_close s] is the longest run of characters other than the
    closing brace at the head of [s], when a closing brace ends it. *)
Fixpoint span_to_close (s : string) : option string :=
  match s with
  | EmptyString => None
  | String c r =>
      if (c =? "}")%char then Some EmptyString
      else match span_to_close r with
           | Some inner => Some (String c inner)
           | None => None
           end
  end.

Fixpoint match_tokens_go (skip : nat) (s : string) : list string :=
  match s with
  | EmptyString => []
  | String c r =>
      match skip with
      | S k => match_tokens_go k r
      | O =>
          if (c =? "{")%char then
            match span_to_close r with
            | Some (String a inner') =>
                ("{" +:+ String a inner' +:+ "}")
                  :: match_tokens_go (S (S (String.length inner'))) r
            | _ => match_tokens_go 0 r
            end
          else match_tokens_go 0 r
      end
  end.
Definition match_tokens (s : string) : list string := match_tokens_go 0 s.

End JS.

(** ** The line parser *)

(** The scan of [parseCSVLine]: [cur] is the field being built, [result]
    the fields pushed so far. *)
Fixpoint parseCSVLine_go (line cur : string) (inQuotes : bool)
    (result : list string) : list string :=
  match line with
  | EmptyString => result ++ [cur]
  | String ch rest =>
      if (ch =? JS.dquote)%char then
        match rest with
        | String ch' rest' =>
            if (ch' =? JS.dquote)%char
            then parseCSVLine_go rest' (cur +:+ String JS.dquote EmptyString)
                   inQuotes result
            else parseCSVLine_go rest cur (negb inQuotes) result
        | EmptyString => parseCSVLine_go rest cur (negb inQuotes) result
        end
      else if ((ch =? ",")%char && negb inQuotes)%bool
      then parseCSVLine_go rest EmptyString inQuotes (result ++ [cur])
      else parseCSVLine_go rest (cur +:+ String ch EmptyString) inQuotes result
  end.

Definition parseCSVLine (line : string) : list string :=
  map JS.trim (parseCSVLine_go line EmptyString false []).

(** The scan as the specification words it, for comparison with
    [parseCSVLine]: a double quote followed by a double quote is an escaped
    quote only inside quotes; any other double quote toggles the quote
    state. *)
Fixpoint parseCSVLine_spec_go (line cur : string) (inQuotes : bool)
    (result : list string) : list string :=
  match line with
  | EmptyString => result ++ [cur]
  | String ch rest =>
      if (ch =? JS.dquote)%char then
        match rest with
        | String ch' rest' =>
            if (inQuotes && (ch' =? JS.dquote)%char)%bool
            then parseCSVLine_spec_go rest' (cur +:+ String JS.dquote EmptyString)
                   inQuotes result
            else parseCSVLine_spec_go rest cur (negb inQuotes) result
        | EmptyString => parseCSVLine_spec_go rest cur (negb inQuotes) result
        end
      else if ((ch =? ",")%char && negb inQuotes)%bool
      then parseCSVLine_spec_go rest EmptyString inQuotes (result ++ [cur])
      else parseCSVLine_spec_go rest (cur +:+ String ch EmptyString) inQuotes
             result
  end.

Definition parseCSVLine_spec (line : string) : list string :=
  map JS.trim (parseCSVLine_spec_go line EmptyString false []).

(** ** Objects whose key order is observed

    An ordered property list with the own-property order of the language:
    keys that are array indices (canonical decimal numerals below
    [2^32 - 1]) come first, in ascending numeric order, then the other
    keys in the order of their creation.  Assigning to an existing key
    keeps its place. *)

Module Obj.

Definition t (V : Type) : Type := list (string * V).

Definition is_digit (c : ascii) : bool :=
  let n := N_of_ascii c in ((48 <=? n) && (n <=? 57))%N.

Fixpoint digits_value (s : string) (acc : N) : option N :=
  match s with
  | EmptyString => Some acc
  | String c r =>
      if is_digit c
      then digits_value r (10 * acc + (N_of_ascii c - 48))%N
      else None
  end.

Definition array_index (k : string) : option N :=
  match k with
  | EmptyString => None
  | String c r =>
      if ((c =? "0")%char && negb (String.eqb r EmptyString))%bool then None
      else match digits_value k 0%N with
           | Some n => if (n <=? 4294967294)%N then Some n else None
           | None => None
           end
  end.

Section Ops.
Context {V : Type}.

Fixpoint get (k : string) (o : t V) : option V :=
  match o with
  | [] => None
  | (k', v) :: r => if String.eqb k' k then Some v else get k r
  end.

Fixpoint overwrite (k : string) (v : V) (o : t V) : t V :=
  match o with
  | [] => []
  | (k', v') :: r =>
      if String.eqb k' k then (k', v) :: r else (k', v') :: overwrite k v r
  end.

Fixpoint insert_index (n : N) (k : string) (v : V) (o : t V) : t V :=
  match o with
  | [] => [(k, v)]
  | (k', v') :: r =>
      match array_index k' with
      | Some n' =>
          if (n' <? n)%N then (k', v') :: insert_index n k v r
          else (k, v) :: o
      | None => (k, v) :: o
      end
  end.

(** [o[k] = v].  The key [__proto__] is the accessor inherited from
    [Object.prototype]: assigning to it sets the prototype, or does nothing
    for a value that is no object, and creates no own property. *)
Definition set (k : string) (v : V) (o : t V) : t V :=
  if String.eqb k "__proto__" then o
  else
    match get k o with
    | Some _ => overwrite k v o
    | None =>
        match array_index k with
        | Some n => insert_index n k v o
        | None => o ++ [(k, v)]
        end
    end.

(** [Object.keys(o)] *)
Definition keys (o : t V) : list string := map fst o.
End Ops.

End Obj.

(** ** Members of [Object.prototype] *)

(** The names that every plain object inherits. *)
Definition prototypeMembers : list string :=
  ["constructor"; "__defineGetter__"; "__defineSetter__"; "hasOwnProperty";
   "__lookupGetter__"; "__lookupSetter__"; "isPrototypeOf";
   "propertyIsEnumerable"; "toString"; "valueOf"; "__proto__";
   "toLocaleString"].

Definition isPrototypeMember (k : string) : bool :=
  existsb (String.eqb k) prototypeMembers.

(** [o[k] = v] on an object kept as a [gmap]: as for [Obj.set], the key
    [__proto__] takes no own property. *)
Definition assignProp {V} (k : string) (v : V) (o : gmap string V)
    : gmap string V :=
  if String.eqb k "__proto__" then o else <[k := v]> o.

(** [delete o[k]]: only an own property is deleted. *)
Definition deleteProp {V} (k : string) (o : gmap string V) : gmap string V :=
  if String.eqb k "__proto__" then o else delete k o.

(** [String(o[k])] for a key [k] that a plain object [o] inherits: the
    accessor [__proto__] yields [Object.prototype], the other members are
    native functions, [constructor] being [Object]. *)
Definition inheritedText (k : string) : option string :=
  if String.eqb k "__proto__" then Some "[object Object]"
  else if isPrototypeMember k
       then Some ("function "
                  +:+ (if String.eqb k "constructor" then "Object" else k)
                  +:+ "() { [native code] }")
       else None.

(** ** Data model *)

(** A section [{ id, name, removable }]. *)
Record section : Type := mkSection {
  sec_id : string;
  sec_name : string;
  removable : bool
}.

(** A converted entry [{ title, content, data }]; [data] maps a section
    name to the object of that section, keyed by lower-cased header. *)
Record record : Type := mkRecord {
  title : string;
  content : string;
  data : Obj.t (Obj.t string)
}.

(** A status message [{ type, message }]. *)
Record status_msg : Type := mkStatus {
  stype : string;
  message : string
}.

(** The content of the blocking modal [{ title, content }]. *)
Record modal : Type := mkModal {
  modal_title : string;
  modal_content : string
}.

(** The part of a [Date] that the component reads. *)
Record Date : Type := mkDate {
  getTime : N;
  getFullYear : nat;
  getMonth : nat;
  getDate : nat;
  getHours : nat;
  getMinutes : nat;
  getSeconds : nat;
  toISOString : string
}.

(** A file handed to the browser for download. *)
Record download : Type := mkDownload {
  dl_name : string;
  dl_mime : string;
  dl_body : string
}.

(** The state of the component.  [file] is the text of the selected file. *)
Record state : Type := mkState {
  file : option string;
  detectedHeaders : list string;
  jsonData : list record;
  status : status_msg;
  isProcessing : bool;
  modalContent : option modal;
  sections : list section;
  columnMap : gmap string (option string);
  titlePattern : string
}.

Definition mainSection : section := mkSection "main" "main" true.

Definition initialState : state :=
  {| file := None; detectedHeaders := []; jsonData := [];
     status := mkStatus "" ""; isProcessing := false; modalContent := None;
     sections := [mainSection]; columnMap := ∅; titlePattern := "{title}" |}.

Definition setFile (v : option string) (st : state) : state :=
  mkState v (detectedHeaders st) (jsonData st) (status st) (isProcessing st)
    (modalContent st) (sections st) (columnMap st) (titlePattern st).
Definition setDetectedHeaders (v : list string) (st : state) : state :=
  mkState (file st) v (jsonData st) (status st) (isProcessing st)
    (modalContent st) (sections st) (columnMap st) (titlePattern st).
Definition setJsonData (v : list record) (st : state) : state :=
  mkState (file st) (detectedHeaders st) v (status st) (isProcessing st)
    (modalContent st) (sections st) (columnMap st) (titlePattern st).
Definition setStatus (v : status_msg) (st : state) : state :=
  mkState (file st) (detectedHeaders st) (jsonData st) v (isProcessing st)
    (modalContent st) (sections st) (columnMap st) (titlePattern st).
Definition setIsProcessing (v : bool) (st : state) : state :=
  mkState (file st) (detectedHeaders st) (jsonData st) (status st) v
    (modalContent st) (sections st) (columnMap st) (titlePattern st).
Definition setModalContent (v : option modal) (st : state) : state :=
  mkState (file st) (detectedHeaders st) (jsonData st) (status st)
    (isProcessing st) v (sections st) (columnMap st) (titlePattern st).
Definition setSections (v : list section) (st : state) : state :=
  mkState (file st) (detectedHeaders st) (jsonData st) (status st)
    (isProcessing st) (modalContent st) v (columnMap st) (titlePattern st).
Definition setColumnMap (v : gmap string (option string)) (st : state) : state :=
  mkState (file st) (detectedHeaders st) (jsonData st) (status st)
    (isProcessing st) (modalContent st) (sections st) v (titlePattern st).
Definition setTitlePattern (v : string) (st : state) : state :=
  mkState (file st) (detectedHeaders st) (jsonData st) (status st)
    (isProcessing st) (modalContent st) (sections st) (columnMap st) v.

(** ** Section registry *)

(** [renameSection(id, newName)] *)
Definition renameSection (id newName : string) (st : state) : state :=
  setSections
    (map (fun s => if String.eqb (sec_id s) id
                   then mkSection (sec_id s) newName (removable s) else s)
       (sections st)) st.

(** [removeSection(id)]: the sections with that id are filtered out, and
    the entries of the column map that held [id] take the id of the first
    remaining section, [undefined] when none remains. *)
Definition removeSection (id : string) (st : state) : state :=
  let nextSections :=
    filter (fun s => sec_id s <> id) (sections st) in
  let fallbackId := sec_id <$> head nextSections in
  let nextMap :=
    (fun v => if decide (v = Some id) then fallbackId else v) <$> columnMap st in
  setSections nextSections (setColumnMap nextMap st).

(** [setColumnAssignment(header, sectionId)] *)
Definition setColumnAssignment (header sectionId : string) (st : state) : state :=
  let key := JS.toLowerCase header in
  match sectionId with
  | EmptyString => setColumnMap (deleteProp key (columnMap st)) st
  | _ => setColumnMap (assignProp key (Some sectionId) (columnMap st)) st
  end.

(** [resolve(headerLower)] as [processCSV] computes it: the assigned id, or
    the id of the first section, and then the section of that id, or the
    first section.  Under a key that the map does not hold and that names
    an inherited member, the read yields a value that is no id and the
    header is routed to the first section, as it is by the default id. *)
Definition defaultSectionId (secs : list section) : string :=
  match head secs with Some s => sec_id s | None => "section_default" end.

Definition targetSection (secs : list section)
    (cmap : gmap string (option string)) (headerLower : string) : option section :=
  let targetSectionId :=
    match cmap !! headerLower with
    | Some (Some id) => id
    | _ => defaultSectionId secs
    end in
  match find (fun s => String.eqb (sec_id s) targetSectionId) secs with
  | Some s => Some s
  | None => head secs
  end.

(** ** [JSON.stringify] on the values the component serialises *)

Module JSON.

#[local] Set Warnings "-register-all".

Inductive value : Type :=
| JString (s : string)
| JArray (items : list value)
| JObject (props : list (string * value)).

Definition hex_digit (d : N) : ascii :=
  if (d <? 10)%N then ascii_of_N (48 + d) else ascii_of_N (87 + d).

(** One code unit of [QuoteJSONString]. *)
Definition quote_char (c : ascii) : string :=
  let n := N_of_ascii c in
  match n with
  | 8 => "\b"
  | 9 => "\t"
  | 10 => "\n"
  | 12 => "\f"
  | 13 => "\r"
  | 34 => String "\" (String JS.dquote EmptyString)
  | 92 => "\\"
  | _ =>
      if (n <? 32)%N
      then "\u00" +:+ String (hex_digit (n / 16)) (String (hex_digit (n mod 16)) EmptyString)
      else String c EmptyString
  end%N.

Fixpoint quote_body (s : string) : string :=
  match s with
  | EmptyString => EmptyString
  | String c r => quote_char c +:+ quote_body r
  end.

Definition quote (s : string) : string :=
  String JS.dquote (quote_body s +:+ String JS.dquote EmptyString).

(** The brackets and separators of [SerializeJSONObject] and
    [SerializeJSONArray] around the serialised members [parts]. *)
Definition wrap (opening closing indent gap : string) (parts : list string)
    : string :=
  match parts with
  | [] => opening +:+ closing
  | _ =>
      match gap with
      | EmptyString => opening +:+ JS.join "," parts +:+ closing
      | _ =>
          let stepback := indent in
          let indent := indent +:+ gap in
          let separator := "," +:+ String JS.LF indent in
          opening +:+ String JS.LF indent +:+ JS.join separator parts
          +:+ String JS.LF stepback +:+ closing
      end
  end.

Fixpoint serialize (gap indent : string) (v : value) : string :=
  match v with
  | JString s => quote s
  | JArray items =>
      wrap "[" "]" indent gap (map (serialize gap (indent +:+ gap)) items)
  | JObject props =>
      wrap "{" "}" indent gap
        (map (fun kv =>
                quote (fst kv)
                +:+ (match gap with EmptyString => ":" | _ => ": " end)
                +:+ serialize gap (indent +:+ gap) (snd kv))
           props)
  end.

(** [JSON.stringify(v)] and [JSON.stringify(v, null, 2)] *)
Definition stringify (v : value) : string := serialize "" "" v.
Definition stringify2 (v : value) : string := serialize "  " "" v.

Definition of_section (sec : Obj.t string) : value :=
  JObject (map (fun kv => (fst kv, JString (snd kv))) sec).

Definition of_data (d : Obj.t (Obj.t string)) : value :=
  JObject (map (fun kv => (fst kv, of_section (snd kv))) d).

Definition of_record (r : record) : value :=
  JObject [("title", JString (title r));
           ("content", JString (content r));
           ("data", of_data (data r))].

End JSON.

(** ** Computations that read the clock *)

Section Engine.

(** The clock of the runtime: the [Date] that the [n]-th reading yields. *)
Variable clock : nat -> Date.

(** A computation from the tick counter to a result and the counter
    after it. *)
Definition Clocked (A : Type) : Type := nat -> A * nat.

Definition ret {A} (a : A) : Clocked A := fun t => (a, t).
Definition bind {A B} (m : Clocked A) (k : A -> Clocked B) : Clocked B :=
  fun t => let '(a, t') := m t in k a t'.
(** [new Date()] *)
Definition newDate : Clocked Date := fun t => (clock t, S t).

Notation "'let*' x ':=' m 'in' k" := (bind m (fun x => k))
  (at level 10, x name, m at level 100, k at level 200).

(** [addSection(name)] *)
Definition addSection (name : string) (st : state) : Clocked state :=
  match JS.trim name with
  | EmptyString => ret st
  | normalized =>
      let* d := newDate in
      let id := JS.replace_spaces "_" (JS.toLowerCase normalized)
                +:+ "_" +:+ JS.toString36 (getTime d) in
      ret (setSections (sections st ++ [mkSection id normalized true]) st)
  end.

(** *** Title pattern resolver *)

Definition formatTimestampForPattern (date : Date) : string :=
  let pad n := JS.padStart2 (JS.String_of_nat n) in
  JS.String_of_nat (getFullYear date)
  +:+ pad (getMonth date + 1)
  +:+ pad (getDate date)
  +:+ pad (getHours date)
  +:+ pad (getMinutes date)
  +:+ pad (getSeconds date).

(** [found ? String(rowObject[found] ?? "") : ""] for the result of
    [headersArray.find]: the field under [found], or the inherited member
    when the row has no such key. *)
Definition valueOfFound (rowObject : gmap string string)
    (found : option string) : string :=
  match found with
  | Some EmptyString | None => EmptyString
  | Some h =>
      match rowObject !! h with
      | Some v => v
      | None => default EmptyString (inheritedText h)
      end
  end.

Definition resolveToken (token : string) (rowObject : gmap string string)
    (headersArray : list string) (rowIndex : nat) : Clocked string :=
  let t := JS.trim token in
  if String.eqb t "title" then ret (default EmptyString (rowObject !! "title"))
  else if String.eqb t "index" then ret (JS.String_of_nat rowIndex)
  else if String.eqb t "timestamp" then
    let* d := newDate in ret (formatTimestampForPattern d)
  else if JS.startsWith "column:" (JS.toLowerCase t) then
    match JS.trim (JS.slice_from 7 t) with
    | EmptyString => ret EmptyString
    | headerName =>
        let target := JS.toLowerCase headerName in
        let found :=
          find (fun h => String.eqb (JS.toLowerCase h) target) headersArray in
        ret (valueOfFound rowObject found)
    end
  else if JS.startsWith "column_" (JS.toLowerCase t) then
    match JS.trim (JS.slice_from 7 t) with
    | EmptyString => ret EmptyString
    | headerName =>
        let normalizedQuery :=
          JS.replace_spaces "_" (JS.toLowerCase headerName) in
        let found :=
          find (fun h => String.eqb
                           (JS.replace_spaces "_" (JS.toLowerCase h))
                           normalizedQuery) headersArray in
        ret (valueOfFound rowObject found)
    end
  else
    let found :=
      find (fun h => String.eqb (JS.toLowerCase h) (JS.toLowerCase t))
        headersArray in
    ret (valueOfFound rowObject found).

(** One round of the [tokens.forEach] of [buildTitleFromPattern]. *)
Definition substituteToken (rowObject : gmap string string)
    (headersArray : list string) (rowIndex : nat)
    (result raw : string) : Clocked string :=
  let token := JS.slice_1_m1 raw in
  let* val := resolveToken token rowObject headersArray rowIndex in
  let safeVal := JS.trim val in
  ret (JS.split_join raw safeVal result).

Fixpoint substituteTokens (rowObject : gmap string string)
    (headersArray : list string) (rowIndex : nat)
    (tokens : list string) (result : string) : Clocked string :=
  match tokens with
  | [] => ret result
  | raw :: rest =>
      let* result' := substituteToken rowObject headersArray rowIndex result raw in
      substituteTokens rowObject headersArray rowIndex rest result'
  end.

Definition buildTitleFromPattern (pattern : string)
    (rowObject : gmap string string) (headersArray : list string)
    (rowIndex : nat) : Clocked string :=
  match JS.trim pattern with
  | EmptyString => ret (default EmptyString (rowObject !! "title"))
  | _ =>
      match JS.match_tokens pattern with
      | [] => ret pattern
      | tokens =>
          substituteTokens rowObject headersArray rowIndex tokens pattern
      end
  end.

(** *** Record builder *)

(** The header list of a header line: blank headers take their position,
    every header is lower-cased. *)
Definition headersOfLine (line : string) : list string :=
  map JS.toLowerCase
    (imap (fun i h => match h with
                      | EmptyString => "column_" +:+ JS.String_of_nat (i + 1)
                      | _ => h
                      end)
       (parseCSVLine line)).

(** The values of a row, padded and truncated to the header width. *)
Definition fitValues (width : nat) (values : list string) : list string :=
  take width (values ++ replicate (width - length values) EmptyString).

(** [headers.forEach((header, index) => row[header] = values[index] ?? "")] *)
Definition buildRow (headers values : list string) : gmap string string :=
  foldl (fun row hi =>
           assignProp hi.2 (default EmptyString (values !! hi.1)) row)
    ∅ (imap pair headers).

(** [sections.forEach((s) => sectionsData[s.name] = {})] *)
Definition emptySectionsData (secs : list section) : Obj.t (Obj.t string) :=
  foldl (fun sd s => Obj.set (sec_name s) [] sd) [] secs.

(** The second [headers.forEach] of the row loop.  [None] is the
    [TypeError] of reading [name] of an undefined section, or of writing
    into an undefined section object.  Under the section name [__proto__]
    the lookup yields the prototype that [emptySectionsData] has set, and
    the value is written there, where nothing reads it: the own properties
    stay as they are.  The header [__proto__] is no own key of the section
    object either, by [Obj.set]. *)
Definition placeHeader (secs : list section)
    (cmap : gmap string (option string)) (row : gmap string string)
    (sectionsData : Obj.t (Obj.t string)) (headerLower : string)
    : option (Obj.t (Obj.t string)) :=
  if (String.eqb headerLower "title" || String.eqb headerLower "content")%bool
  then Some sectionsData
  else
    match targetSection secs cmap headerLower with
    | None => None
    | Some target =>
        let sectionName := sec_name target in
        match Obj.get sectionName sectionsData with
        | None =>
            if String.eqb sectionName "__proto__" then Some sectionsData
            else None
        | Some sectionObj =>
            Some (Obj.set sectionName
                    (Obj.set headerLower
                       (default EmptyString (row !! headerLower)) sectionObj)
                    sectionsData)
        end
    end.

Fixpoint placeHeaders (secs : list section)
    (cmap : gmap string (option string)) (row : gmap string string)
    (headers : list string) (sectionsData : Obj.t (Obj.t string))
    : option (Obj.t (Obj.t string)) :=
  match headers with
  | [] => Some sectionsData
  | h :: rest =>
      match placeHeader secs cmap row sectionsData h with
      | None => None
      | Some sd => placeHeaders secs cmap row rest sd
      end
  end.

(** The update of [titleCounts] and the title it yields.  [titleCounts]
    holds the counts, its own properties.  Under the name of a member of
    [Object.prototype] the read yields the inherited member, which is
    truthy; [+= 1] turns it into a string, which is stored (or dropped, for
    [__proto__]) and is never greater than 1 as a number: such a title is
    not counted and never numbered. *)
Definition countTitle (titleCounts : gmap string nat) (normalized : string)
    : gmap string nat * string :=
  if isPrototypeMember normalized then (titleCounts, normalized)
  else
    let count :=
      match titleCounts !! normalized with
      | None | Some 0 => 1
      | Some c => c + 1
      end in
    (<[normalized := count]> titleCounts,
     if 1 <? count
     then normalized +:+ "-" +:+ JS.String_of_nat (count - 1)
     else normalized).

(** The row loop of [processCSV], from line index [i] on.  [None] is a
    thrown exception. *)
Fixpoint convertRows (secs : list section)
    (cmap : gmap string (option string)) (pattern : string)
    (headers : list string) (lines : list string) (i : nat)
    (titleCounts : gmap string nat) (transformed : list record)
    : Clocked (option (list record)) :=
  match lines with
  | [] => ret (Some transformed)
  | line :: rest =>
      let values := fitValues (length headers) (parseCSVLine line) in
      let row := buildRow headers values in
      match placeHeaders secs cmap row headers (emptySectionsData secs) with
      | None => ret None
      | Some sectionsData =>
          let* generatedBaseTitle := buildTitleFromPattern pattern row headers i in
          let '(titleCounts', finalTitle) :=
            countTitle titleCounts generatedBaseTitle in
          let jsonEntry :=
            mkRecord finalTitle (default EmptyString (row !! "content"))
              sectionsData in
          convertRows secs cmap pattern headers rest (S i) titleCounts'
            (transformed ++ [jsonEntry])
      end
  end.

(** The non-blank lines of a file text. *)
Definition nonblankLines (text : string) : list string :=
  List.filter JS.nonblank (JS.split_on JS.LF (JS.replace_crlf text)).

Definition convertedMessage (n : nat) : string :=
  "Converted " +:+ JS.String_of_nat n +:+ " row"
  +:+ (if n =? 1 then "" else "s") +:+ ".".

(** [processCSV()] *)
Definition processCSV (st : state) : Clocked state :=
  match file st with
  | None =>
      ret (setStatus (mkStatus "error" "Please select a file first.") st)
  | Some text =>
      let st := setStatus (mkStatus "" "") (setIsProcessing true st) in
      match nonblankLines text with
      | [] =>
          ret (setIsProcessing false
                 (setStatus
                    (mkStatus "error" "CSV file is empty or malformed.") st))
      | headerLine :: rows =>
          let headers := headersOfLine headerLine in
          let* result := convertRows (sections st) (columnMap st)
                      (titlePattern st) headers rows 1 ∅ [] in
          match result with
          | Some transformed =>
              ret (setIsProcessing false
                     (setStatus
                        (mkStatus "success"
                           (convertedMessage (length transformed)))
                        (setJsonData transformed
                           (setDetectedHeaders headers st))))
          | None =>
              ret (setIsProcessing false
                     (setStatus
                        (mkStatus "error" "Error processing CSV file.") st))
          end
      end
  end.

(** *** Header resolver *)

(** [extractHeadersFromFile], from the text that the first 16 KiB of the
    file decode to, [await uploadedFile.slice(0, 16 * 1024).text()]: the
    headers of its first non-blank line; the column map is reset and an
    empty section list is replaced by the default section.  Without a
    non-blank line only the header list is cleared. *)
Definition extractHeadersFromFile (text : string) (st : state) : state :=
  let rawLines := JS.split_on JS.LF (JS.replace_crlf text) in
  match find JS.nonblank rawLines with
  | None => setDetectedHeaders [] st
  | Some firstLine =>
      let st := setDetectedHeaders (headersOfLine firstLine) st in
      let st := setColumnMap ∅ st in
      setSections
        (match sections st with [] => [mainSection] | prev => prev end) st
  end.

(** *** Exporters *)

Definition canExport (st : state) : bool :=
  (negb (length (jsonData st) =? 0) && negb (length (sections st) =? 0))%bool.

Definition showExportBlockedModal (st : state) : state :=
  setStatus (mkStatus "error" "No sections defined.")
    (setModalContent
       (Some (mkModal "Export Error"
                "Cannot export because no sections are defined. Please add at least one section before exporting."))
       st).

Definition slugify (s : string) : string :=
  JS.replace_spaces "-"
    (JS.trim
       (JS.remove_chars
          (fun c => negb (JS.is_word c || JS.is_space c || (c =? "-")%char))
          (JS.toLowerCase s))).

Definition reconstructRowFromItem (item : record) : gmap string string :=
  let flat :=
    foldl (fun flat sectionName =>
             let sec := default [] (Obj.get sectionName (data item)) in
             foldl (fun flat k =>
                      match Obj.get k sec with
                      | Some v => assignProp k v flat
                      | None => flat
                      end) flat (Obj.keys sec))
      ∅ (Obj.keys (data item)) in
  assignProp "content" (content item) (assignProp "title" (title item) flat).

(** [new Date().toISOString().replace(/[:.-]/g, "")] *)
Definition fileTimestamp : Clocked string :=
  let* d := newDate in
  ret (JS.remove_chars
         (fun c => ((c =? ":") || (c =? ".") || (c =? "-"))%char)
         (toISOString d)).

Definition csvEscape (value : string) : string :=
  String JS.dquote (JS.double_quotes value +:+ String JS.dquote EmptyString).

Definition baseHeaders : list string :=
  ["content"; "title"; "route_url"; "published_at"; "data"; "status";
   "sites"; "locale"; "taxonomy_terms"; "created_at"].

(** [downloadJSON()]: the next state and the file handed to the browser. *)
Definition downloadJSON (st : state) : Clocked (state * option download) :=
  if negb (canExport st) then ret (showExportBlockedModal st, None)
  else
    let* timestamp := fileTimestamp in
    if length (jsonData st) =? 0
    then ret (setStatus (mkStatus "error" "No data to download.") st, None)
    else
      ret (setStatus (mkStatus "success" "JSON download started.") st,
           Some (mkDownload ("exported-data-" +:+ timestamp +:+ ".json")
                   "application/json"
                   (JSON.stringify2
                      (JSON.JArray (map JSON.of_record (jsonData st)))))).

(** The ten fields of the line of [item], before escaping. *)
Definition csvFields (pattern : string) (headers : list string)
    (item : record) (idx : nat) : Clocked (list string) :=
  let flatRow := reconstructRowFromItem item in
  let* routeFromPattern :=
    buildTitleFromPattern pattern flatRow headers (idx + 1) in
  let routeBase :=
    if JS.nonblank routeFromPattern then routeFromPattern else title item in
  let routeTitle := slugify routeBase in
  let dataJsonString := JSON.stringify (JSON.of_data (data item)) in
  let* published := newDate in
  let* created := newDate in
  ret [content item; title item;
       "/" +:+ content item +:+ "/" +:+ routeTitle;
       toISOString published; dataJsonString; "1"; ""; "en"; "";
       toISOString created].

(** The body of the [jsonData.forEach] of [downloadCSV], from index
    [idx] on. *)
Fixpoint csvRecordRows (pattern : string) (headers : list string)
    (items : list record) (idx : nat) : Clocked (list string) :=
  match items with
  | [] => ret []
  | item :: rest =>
      let* fields := csvFields pattern headers item idx in
      let* rows := csvRecordRows pattern headers rest (S idx) in
      ret (JS.join "," (map csvEscape fields) :: rows)
  end.

(** [csvRows] at the end of [downloadCSV]. *)
Definition csvRows (st : state) : Clocked (list string) :=
  let headersLower := map JS.toLowerCase baseHeaders in
  let* rows :=
    csvRecordRows (titlePattern st) (detectedHeaders st) (jsonData st) 0 in
  ret (JS.join "," headersLower :: rows).

(** [downloadCSV()] *)
Definition downloadCSV (st : state) : Clocked (state * option download) :=
  if negb (canExport st) then ret (showExportBlockedModal st, None)
  else
    let* timestamp := fileTimestamp in
    if length (jsonData st) =? 0
    then ret (setStatus (mkStatus "error" "No data to download.") st, None)
    else
      let* rows := csvRows st in
      ret (setStatus (mkStatus "success" "CSV download started.") st,
           Some (mkDownload ("exported-data-" +:+ timestamp +:+ ".csv")
                   "text/csv" (JS.join (String JS.LF EmptyString) rows))).

End Engine.

(** ** Section operations as a transition system *)

Inductive sectionOp : Type :=
| OpAdd (name : string)
| OpRename (id newName : string)
| OpRemove (id : string).

Definition applyOp (clock : nat -> Date) (op : sectionOp) (st : state)
    : Clocked state :=
  match op with
  | OpAdd name => addSection clock name st
  | OpRename id newName => ret (renameSection id newName st)
  | OpRemove id => ret (removeSection id st)
  end.

Fixpoint runOps (clock : nat -> Date) (ops : list sectionOp) (st : state)
    (t : nat) : state :=
  match ops with
  | [] => st
  | op :: rest =>
      let '(st', t') := applyOp clock op st t in runOps clock rest st' t'
  end.

(** [sparesOne ops st t]: along the run of [ops] from [st], every removal
    meets a section whose id is not the removed one. *)
Fixpoint sparesOne (clock : nat -> Date) (ops : list sectionOp) (st : state)
    (t : nat) : bool :=
  match ops with
  | [] => true
  | op :: rest =>
      let '(st', t') := applyOp clock op st t in
      (match op with
       | OpRemove id =>
           existsb (fun s => negb (String.eqb (sec_id s) id)) (sections st)
       | _ => true
       end && sparesOne clock rest st' t')%bool
  end.

(** Every entry of the column map holds the id of a section of the list. *)
Definition refersToSections (secs : list section)
    (cmap : gmap string (option string)) : Prop :=
  forall header v, cmap !! header = Some v ->
    exists s, s ∈ secs /\ v = Some (sec_id s).

(** Every section name that can be an own key is a key of a sections
    object. *)
Definition coversSections (secs : list section) (sd : Obj.t (Obj.t string))
    : Prop :=
  forall s, s ∈ secs -> sec_name s <> "__proto__" ->
            is_Some (Obj.get (sec_name s) sd).

(** A clock for the examples: one millisecond a tick. *)
Definition sampleClock (n : nat) : Date :=
  mkDate (1700000000000 + N.of_nat n) 2023 10 14 22 13 20
    ("2023-11-14T22:13:20." +:+ JS.padStart2 (JS.String_of_nat n) +:+ "0Z").

(** The text of a file from its lines, and a double quote as a string. *)
Definition fileOfLines (lines : list string) : string :=
  JS.join (String JS.LF EmptyString) lines.
Definition dq : string := String JS.dquote EmptyString.

(** The state after a file with the given text was selected and the title
    pattern set, from the initial state. *)
Definition selected (text pattern : string) : state :=
  setTitlePattern pattern (setFile (Some text) initialState).


(** The pattern holds no token that resolves to the time stamp. *)
Definition noTimestampToken (pattern : string) : bool :=
  forallb (fun raw =>
             negb (String.eqb (JS.trim (JS.slice_1_m1 raw)) "timestamp"))
    (JS.match_tokens pattern).

(** Two clocks whose readings all format to one time stamp. *)
Definition frozenTimestamps (clock1 clock2 : nat -> Date) : Prop :=
  forall n m,
    formatTimestampForPattern (clock1 n) = formatTimestampForPattern (clock2 m).

(** The token is not the time stamp, or the time stamps are frozen. *)
Definition timelessToken (clock1 clock2 : nat -> Date) (token : string) : Prop :=
  String.eqb (JS.trim token) "timestamp" = false
  \/ frozenTimestamps clock1 clock2.

(** A field that begins and ends with a double quote, and a line all of
    whose comma-separated pieces are such fields. *)
Definition wrappedInQuotes (field : string) : Prop :=
  exists body, field = String JS.dquote (body +:+ dq).

Definition lineFieldsWrapped (line : string) : Prop :=
  Forall wrappedInQuotes (JS.split_on "," line).

(** Every double quote of the string stands in a pair. *)
Fixpoint quotesPaired (s : string) : bool :=
  match s with
  | EmptyString => true
  | String c r =>
      if (c =? JS.dquote)%char then
        match r with
        | String c' r' => ((c' =? JS.dquote)%char && quotesPaired r')%bool
        | EmptyString => false
        end
      else quotesPaired r
  end.

(** Example states: the scenario file selected and converted; the column [name]
    assigned to the default section, alone and beside a second section; the
    converted scenario with its only section removed. *)
Definition scenarioSelected : state :=
  selected (fileOfLines ["name,age"; "Alice,30"; "Bob,25"])
    "{column:name}-{index}".

Definition convertedScenario : state :=
  fst (processCSV sampleClock scenarioSelected 0).

Definition nameAssigned : state :=
  setColumnAssignment "name" "main" initialState.

Definition nameAssignedOfTwo : state :=
  setColumnAssignment "Name" "main"
    (setSections [mainSection; mkSection "extra_1" "extra" true] initialState).

Definition convertedWithoutSections : state :=
  removeSection "main" convertedScenario.

(** Every character of the string satisfies [P]; the character [c] occurs
    in the string. *)
Fixpoint allChars (P : ascii -> bool) (s : string) : bool :=
  match s with
  | EmptyString => true
  | String c r => (P c && allChars P r)%bool
  end.

Fixpoint hasChar (c : ascii) (s : string) : bool :=
  match s with
  | EmptyString => false
  | String c' r => ((c' =? c)%char || hasChar c r)%bool
  end.

(** The value holds a character other than the double quote. *)
Definition hasOtherThanQuote (value : string) : bool :=
  negb (allChars (fun c => (c =? JS.dquote)%char) value).

(** The string is empty or begins with a character other than the double
    quote. *)
Definition noLeadingQuote (s : string) : bool :=
  match s with
  | EmptyString => true
  | String c _ => negb (c =? JS.dquote)%char
  end.

(** What a sections object holds for a row: [placedAt] says that the value
    of the row under the header lies in the object of the section the
    header is routed to; [placedOnlyFrom] says that every entry of every
    section object is the value of the row under a header other than
    [title], [content] and [__proto__]. *)
Definition placedAt (secs : list section) (cmap : gmap string (option string))
    (row : gmap string string) (sd : Obj.t (Obj.t string)) (h : string) : Prop :=
  exists s o,
    targetSection secs cmap h = Some s
    /\ Obj.get (sec_name s) sd = Some o
    /\ Obj.get h o = Some (default "" (row !! h)).

Definition placedOnlyFrom (row : gmap string string) (headers : list string)
    (sd : Obj.t (Obj.t string)) : Prop :=
  forall n o k v,
    Obj.get n sd = Some o -> Obj.get k o = Some v ->
    k ∈ headers /\ k <> "title" /\ k <> "content" /\ k <> "__proto__"
    /\ v = default "" (row !! k).

(** The header is routed to a section whose name is an own key of the
    sections object, any name but [__proto__]. *)
Definition routedToOwnKey (secs : list section)
    (cmap : gmap string (option string)) (h : string) : Prop :=
  forall s, targetSection secs cmap h = Some s -> sec_name s <> "__proto__".

(** The row object that [processCSV] builds for a line under the headers. *)
Definition rowOfLine (headers : list string) (line : string)
    : gmap string string :=
  buildRow headers (fitValues (length headers) (parseCSVLine line)).

(** The base titles of the rows of a pass, in row order: what
    [buildTitleFromPattern] yields for each line, the clock being read as
    the row loop of [processCSV] reads it. *)
Fixpoint baseTitles (clock : nat -> Date) (pattern : string)
    (headers lines : list string) (i t : nat) : list string :=
  match lines with
  | [] => []
  | line :: rest =>
      let '(base, t') :=
        buildTitleFromPattern clock pattern (rowOfLine headers line) headers
          i t in
      base :: baseTitles clock pattern headers rest (S i) t'
  end.

(** The number of rows before row [j] whose base title is [base]. *)
Definition earlierOccurrences (bases : list string) (j : nat) (base : string)
    : nat :=
  length (filter (fun b => b = base) (take j bases)).

(** The title of a row whose base title has [n] earlier occurrences: the
    name of a member of [Object.prototype] is never numbered. *)
Definition numberedTitle (base : string) (n : nat) : string :=
  if isPrototypeMember base then base
  else match n with
       | 0 => base
       | S k => base +:+ "-" +:+ JS.String_of_nat (S k)
       end.

(** A lower-case letter, a digit, an underscore or a hyphen. *)
Definition isSlugChar (c : ascii) : bool :=
  let n := N_of_ascii c in
  ((97 <=? n) && (n <=? 122) || (48 <=? n) && (n <=? 57)
   || (n =? 95) || (n =? 45))%N.

(** ** File selection *)

(** The part of a [File] that the component reads; [file_text] is the text
    it decodes to, [file_head] the text that its first 16 KiB decode to. *)
Record File : Type := mkFile {
  file_type : string;
  file_name : string;
  file_text : string;
  file_head : string
}.

(** [s.endsWith(suffix)] *)
Definition endsWith (suffix s : string) : bool :=
  (String.length suffix <=? String.length s)
  && String.eqb
       (String.substring (String.length s - String.length suffix)
          (String.length suffix) s)
       suffix.

(** The test [isCSV] of [handleFileSelection]. *)
Definition isCSV (uploadedFile : File) : bool :=
  (String.eqb (file_type uploadedFile) "text/csv"
   || endsWith ".csv" (JS.toLowerCase (file_name uploadedFile)))%bool.

(** [handleFileSelection(uploadedFile)], [None] being no file at all. *)
Definition handleFileSelection (uploadedFile : option File) (st : state)
    : state :=
  match uploadedFile with
  | None => st
  | Some f =>
      if negb (isCSV f)
      then setStatus (mkStatus "error" "Please upload a valid CSV file.") st
      else
        extractHeadersFromFile (file_head f)
          (setStatus (mkStatus "" "") (setFile (Some (file_text f)) st))
  end.

(** * Properties *)

(** ** Section registry *)

Lemma sections_addSection clock name st t :
  sections (fst (addSection clock name st t)) = sections st
  \/ exists s, sections (fst (addSection clock name st t)) = sections st ++ [s].
Proof.
  unfold addSection. destruct (JS.trim name); [by left|].
  right. eexists. reflexivity.
Qed.

Lemma sections_renameSection id newName st :
  length (sections (renameSection id newName st)) = length (sections st).
Proof. unfold renameSection. simpl. apply List.length_map. Qed.

Lemma sections_removeSection id st :
  sections (removeSection id st) = filter (fun s => sec_id s <> id) (sections st).
Proof. reflexivity. Qed.

Lemma existsb_other_id id (secs : list section) :
  existsb (fun s => negb (String.eqb (sec_id s) id)) secs = true ->
  filter (fun s => sec_id s <> id) secs <> [].
Proof.
  intros [s [Hin Hs]]%existsb_exists.
  apply negb_true_iff, String.eqb_neq in Hs.
  intros Hnil.
  assert (s ∈ filter (fun s => sec_id s <> id) secs) as Hel.
  { apply list_elem_of_filter. split; [done|]. by apply list_elem_of_In. }
  rewrite Hnil in Hel. by apply not_elem_of_nil in Hel.
Qed.

Lemma applyOp_keeps_nonempty clock op st t :
  sections st <> [] ->
  match op with
  | OpRemove id =>
      existsb (fun s => negb (String.eqb (sec_id s) id)) (sections st) = true
  | _ => True
  end ->
  sections (fst (applyOp clock op st t)) <> [].
Proof.
  intros Hne Hop. destruct op as [name|id newName|id].
  - change (sections (fst (addSection clock name st t)) <> []).
    destruct (sections_addSection clock name st t) as [->|[s ->]]; [done|].
    by destruct (sections st).
  - change (sections (renameSection id newName st) <> []).
    intros Hnil. apply Hne, length_zero_iff_nil.
    by rewrite <- (sections_renameSection id newName st), Hnil.
  - change (sections (removeSection id st) <> []).
    rewrite sections_removeSection. by apply existsb_other_id.
Qed.

(** C1 (as amended).  Adding and renaming keep the section list non-empty,
    and so does every run of operations in which each [remove(id)] meets a
    section of another id.  [remove(id)] itself has no guard: the list is
    empty after it exactly when every section had the id [id], which
    includes the removal of the last remaining section. *)
Theorem sections_nonempty_while_spared :
  forall clock,
    (forall ops st t,
        sections st <> [] -> sparesOne clock ops st t = true ->
        sections (runOps clock ops st t) <> [])
    /\ (forall id st,
           sections (removeSection id st) = []
           <-> Forall (fun s => sec_id s = id) (sections st)).
Proof.
  intros clock. split.
  - induction ops as [|op rest IH]; intros st t Hne Hsp; simpl in *; [done|].
    pose proof (applyOp_keeps_nonempty clock op st t Hne) as Hstep.
    destruct (applyOp clock op st t) as [st' t'] eqn:E. simpl in Hstep.
    apply andb_true_iff in Hsp as [Hop Hrest].
    apply IH; [|done]. apply Hstep. by destruct op.
  - intros id st. rewrite sections_removeSection.
    induction (sections st) as [|s l IH]; simpl.
    + split; [constructor|done].
    + rewrite filter_cons. destruct (decide (sec_id s <> id)) as [Hs|Hs].
      * split; [done|]. intros H. by inversion H.
      * apply dec_stable in Hs. rewrite IH. split.
        -- by constructor.
        -- intros H. by inversion H.
Qed.

Lemma sections_nonempty_while_spared_witness :
  sections (runOps sampleClock
              [OpAdd "extra"; OpRename "main" "base"; OpRemove "main"]
              initialState 0) <> [].
Proof.
  apply (proj1 (sections_nonempty_while_spared sampleClock)).
  - discriminate.
  - vm_compute. reflexivity.
Defined.

(** C1, counterexample.  From the initial state, removing the default
    section leaves no section at all. *)
Lemma remove_last_section_empties :
  sections (runOps sampleClock [OpRemove "main"] initialState 0) = [].
Proof. reflexivity. Qed.

Lemma columnMap_removeSection id st header :
  columnMap (removeSection id st) !! header
  = (fun v => if decide (v = Some id)
              then sec_id <$> head (sections (removeSection id st)) else v)
      <$> columnMap st !! header.
Proof. unfold removeSection. simpl. by rewrite lookup_fmap. Qed.

(** C4 (as amended).  After [remove(id)] every entry of the column map that
    held [id] holds the id of the new first section when one remains, and
    [undefined] when the removal emptied the list; every other entry is
    unchanged; and when a section remains and every entry referred to a
    section of the list before, every entry refers to a section of the list
    after. *)
Theorem removeSection_reassigns :
  forall id st,
    let st' := removeSection id st in
    (forall header,
        columnMap st !! header = Some (Some id) ->
        columnMap st' !! header = Some (sec_id <$> head (sections st')))
    /\ (forall header,
           columnMap st !! header <> Some (Some id) ->
           columnMap st' !! header = columnMap st !! header)
    /\ (sections st' <> [] ->
        refersToSections (sections st) (columnMap st) ->
        refersToSections (sections st') (columnMap st')).
Proof.
  intros id st st'. subst st'. repeat split.
  - intros header H. rewrite columnMap_removeSection, H. simpl.
    by rewrite decide_True.
  - intros header H. rewrite columnMap_removeSection.
    destruct (columnMap st !! header) as [v|]; [|done]. simpl.
    rewrite decide_False; [done|]. congruence.
  - intros Hne Href header v. rewrite columnMap_removeSection.
    destruct (columnMap st !! header) as [w|] eqn:Hw; [|done].
    simpl. intros [= <-].
    destruct (Href header w Hw) as (s & Hs & ->).
    rewrite sections_removeSection in *.
    case_decide as Hid.
    + destruct (filter _ (sections st)) as [|f l] eqn:Hf; [done|].
      exists f. split; [left|done].
    + exists s. split; [|done]. apply list_elem_of_filter. split; [|done].
      congruence.
Qed.

Lemma removeSection_reassigns_witness :
  columnMap (removeSection "main" nameAssignedOfTwo) !! "name"
  = Some (Some "extra_1")
  /\ refersToSections (sections (removeSection "main" nameAssignedOfTwo))
       (columnMap (removeSection "main" nameAssignedOfTwo)).
Proof.
  split.
  - apply (proj1 (removeSection_reassigns "main" nameAssignedOfTwo)).
    vm_compute. reflexivity.
  - apply (proj2 (proj2 (removeSection_reassigns "main" nameAssignedOfTwo))).
    + intros H. vm_compute in H. discriminate H.
    + intros header v H.
      change (columnMap nameAssignedOfTwo)
        with (<["name" := Some "main"]> (∅ : gmap string (option string))) in H.
      apply lookup_insert_Some in H as [[_ <-]|[_ H]].
      * exists mainSection. split; [left|reflexivity].
      * rewrite lookup_empty in H. discriminate H.
Defined.

(** C4, counterexample.  With the column [name] assigned to the only
    section, removing that section leaves the entry at [undefined] and the
    section list empty: the entry names no section. *)
Lemma remove_last_section_orphans_columns :
  sections (removeSection "main" nameAssigned) = []
  /\ columnMap (removeSection "main" nameAssigned) !! "name" = Some None.
Proof. split; vm_compute; reflexivity. Qed.

(** ** Line parser *)

(** C2, the code at the failing input.  On the line made of [a], two
    double quotes and [b,c], the doubled quote stands outside any quoted
    field, and [parseCSVLine] emits a literal quote for it, where the scan
    of the specification toggles the quote state twice and emits none.  An
    empty quoted field between two commas is read as a field holding one
    quote. *)
Theorem parseCSVLine_doubled_quote_outside :
  parseCSVLine ("a" +:+ dq +:+ dq +:+ "b,c") = ["a" +:+ dq +:+ "b"; "c"]
  /\ parseCSVLine_spec ("a" +:+ dq +:+ dq +:+ "b,c") = ["ab"; "c"]
  /\ parseCSVLine ("a," +:+ dq +:+ dq +:+ ",b") = ["a"; dq; "b"]
  /\ parseCSVLine_spec ("a," +:+ dq +:+ dq +:+ ",b") = ["a"; ""; "b"].
Proof. repeat split; vm_compute; reflexivity. Qed.

(** ** Title uniqueness *)

(** C3, the code at the failing input.  With the pattern [{title}] the rows
    [a], [a], [a-1] have the base titles [a], [a], [a-1]; the second [a]
    takes the suffix [-1] and meets the unmodified third title: two records
    of one pass carry the title [a-1]. *)
Theorem processCSV_duplicate_titles :
  map title
    (jsonData
       (fst (processCSV sampleClock
               (selected (fileOfLines ["title"; "a"; "a"; "a-1"]) "{title}")
               0)))
  = ["a"; "a-1"; "a-1"].
Proof. vm_compute. reflexivity. Qed.

(** ** Record builder: outcomes of a conversion *)

Lemma Obj_get_overwrite_mono {V} k k' (v : V) o :
  is_Some (Obj.get k' o) -> is_Some (Obj.get k' (Obj.overwrite k v o)).
Proof.
  induction o as [|[k0 v0] o IH]; simpl; [done|].
  destruct (String.eqb k0 k) eqn:E; simpl.
  - destruct (String.eqb k0 k'); [by eexists|done].
  - destruct (String.eqb k0 k'); [by eexists|done].
Qed.

Lemma Obj_get_insert_index {V} n k k' (v : V) o :
  is_Some (Obj.get k' (Obj.insert_index n k v o))
  <-> k = k' \/ is_Some (Obj.get k' o).
Proof.
  induction o as [|[k0 v0] o IH]; simpl.
  - destruct (String.eqb k k') eqn:E.
    + apply String.eqb_eq in E. split; [by left|by eexists].
    + apply String.eqb_neq in E. split; [by intros []|].
      intros [?|[]]; done.
  - assert (is_Some (Obj.get k' ((k, v) :: (k0, v0) :: o))
            <-> k = k' \/ is_Some (if String.eqb k0 k' then Some v0
                                   else Obj.get k' o)) as Hcons.
    { simpl. destruct (String.eqb k k') eqn:E.
      - apply String.eqb_eq in E. split; [by left|by eexists].
      - apply String.eqb_neq in E. split; [by right|]. by intros [?|?]. }
    destruct (Obj.array_index k0) as [n'|]; [|exact Hcons].
    destruct (n' <? n)%N; [|exact Hcons].
    simpl. destruct (String.eqb k0 k'); [|exact IH].
    split; [by right|by eexists].
Qed.

Lemma Obj_get_app {V} k (o1 o2 : Obj.t V) :
  Obj.get k (o1 ++ o2)
  = match Obj.get k o1 with Some v => Some v | None => Obj.get k o2 end.
Proof.
  induction o1 as [|[k0 v0] o1 IH]; simpl; [done|].
  by destruct (String.eqb k0 k).
Qed.

Lemma Obj_get_overwrite_same {V} k (v : V) o :
  is_Some (Obj.get k o) -> is_Some (Obj.get k (Obj.overwrite k v o)).
Proof. apply Obj_get_overwrite_mono. Qed.

Lemma Obj_get_set_same {V} k (v : V) o :
  k <> "__proto__" -> is_Some (Obj.get k (Obj.set k v o)).
Proof.
  intros Hk. apply String.eqb_neq in Hk. unfold Obj.set. rewrite Hk.
  destruct (Obj.get k o) eqn:E.
  - apply Obj_get_overwrite_same. by rewrite E.
  - destruct (Obj.array_index k).
    + apply Obj_get_insert_index. by left.
    + rewrite Obj_get_app, E. simpl. rewrite String.eqb_refl. by eexists.
Qed.

Lemma Obj_get_set_mono {V} k k' (v : V) o :
  is_Some (Obj.get k' o) -> is_Some (Obj.get k' (Obj.set k v o)).
Proof.
  intros H. unfold Obj.set.
  destruct (String.eqb k "__proto__"); [done|].
  destruct (Obj.get k o) eqn:E.
  - by apply Obj_get_overwrite_mono.
  - destruct (Obj.array_index k).
    + apply Obj_get_insert_index. by right.
    + rewrite Obj_get_app. destruct H as [w ->]. by eexists.
Qed.

Lemma emptySectionsData_go_covers secs : forall sd,
  (forall k, is_Some (Obj.get k sd) ->
     is_Some (Obj.get k (foldl (fun sd s => Obj.set (sec_name s) [] sd) sd secs)))
  /\ coversSections secs
       (foldl (fun sd s => Obj.set (sec_name s) [] sd) sd secs).
Proof.
  induction secs as [|s secs IH]; intros sd; simpl.
  - split; [done|]. intros s Hs. by apply not_elem_of_nil in Hs.
  - destruct (IH (Obj.set (sec_name s) [] sd)) as [Hmono Hcov]. split.
    + intros k Hk. by apply Hmono, Obj_get_set_mono.
    + intros s' [->|Hs']%elem_of_cons Hname; [|by apply Hcov].
      by apply Hmono, Obj_get_set_same.
Qed.

Lemma emptySectionsData_covers secs :
  coversSections secs (emptySectionsData secs).
Proof. apply emptySectionsData_go_covers. Qed.

Lemma targetSection_nonempty secs cmap h :
  secs <> [] -> exists s, targetSection secs cmap h = Some s /\ s ∈ secs.
Proof.
  intros Hne. unfold targetSection.
  destruct (find _ secs) as [s|] eqn:E.
  - exists s. split; [done|].
    apply find_some in E as [Hin _]. by apply list_elem_of_In.
  - destruct secs as [|s l]; [done|]. exists s. split; [done|left].
Qed.

Lemma placeHeader_total secs cmap row sd h :
  secs <> [] -> coversSections secs sd ->
  exists sd', placeHeader secs cmap row sd h = Some sd'
              /\ coversSections secs sd'.
Proof.
  intros Hne Hcov. unfold placeHeader.
  destruct (_ || _)%bool; [by exists sd|].
  destruct (targetSection_nonempty secs cmap h Hne) as (s & -> & Hs).
  destruct (String.eqb (sec_name s) "__proto__") eqn:Hname.
  - destruct (Obj.get (sec_name s) sd) as [o|]; [|by exists sd].
    eexists. split; [done|].
    intros s' Hs' Hname'. by apply Obj_get_set_mono, Hcov.
  - apply String.eqb_neq in Hname.
    destruct (Hcov s Hs Hname) as [o ->]. eexists. split; [done|].
    intros s' Hs' Hname'. by apply Obj_get_set_mono, Hcov.
Qed.

Lemma placeHeaders_total secs cmap row headers : forall sd,
  secs <> [] -> coversSections secs sd ->
  is_Some (placeHeaders secs cmap row headers sd).
Proof.
  induction headers as [|h rest IH]; intros sd Hne Hcov; simpl; [by eexists|].
  destruct (placeHeader_total secs cmap row sd h Hne Hcov) as (sd' & -> & Hcov').
  by apply IH.
Qed.

Lemma convertRows_length clock secs cmap pattern headers lines :
  forall i counts transformed t out,
    fst (convertRows clock secs cmap pattern headers lines i counts
           transformed t) = Some out ->
    length out = length transformed + length lines.
Proof.
  induction lines as [|line rest IH]; intros i counts transformed t out; simpl.
  - intros [= <-]. lia.
  - destruct (placeHeaders _ _ _ _ _) as [sd|]; [|done].
    unfold bind.
    destruct (buildTitleFromPattern _ _ _ _ _ _) as [base t'].
    destruct (countTitle counts base) as [counts' finalTitle].
    intros H. apply IH in H. rewrite H, length_app. simpl. lia.
Qed.

Lemma convertRows_total clock secs cmap pattern headers lines :
  secs <> [] ->
  forall i counts transformed t,
    is_Some (fst (convertRows clock secs cmap pattern headers lines i counts
                    transformed t)).
Proof.
  intros Hne.
  induction lines as [|line rest IH]; intros i counts transformed t; simpl.
  - by eexists.
  - destruct (placeHeaders_total secs cmap
                (buildRow headers
                   (fitValues (length headers) (parseCSVLine line)))
                headers (emptySectionsData secs) Hne
                (emptySectionsData_covers secs)) as [sd ->].
    unfold bind.
    destruct (buildTitleFromPattern _ _ _ _ _ _) as [base t'].
    destruct (countTitle counts base) as [counts' finalTitle].
    apply IH.
Qed.

(** The three ways a conversion of a selected file ends. *)
Lemma processCSV_outcome clock st text t :
  file st = Some text ->
  let st' := fst (processCSV clock st t) in
  match nonblankLines text with
  | [] =>
      status st' = mkStatus "error" "CSV file is empty or malformed."
      /\ jsonData st' = jsonData st
  | headerLine :: rows =>
      match fst (convertRows clock (sections st) (columnMap st)
                   (titlePattern st) (headersOfLine headerLine) rows 1 ∅ [] t)
      with
      | Some transformed =>
          status st'
          = mkStatus "success" (convertedMessage (length transformed))
          /\ jsonData st' = transformed
      | None =>
          status st' = mkStatus "error" "Error processing CSV file."
          /\ jsonData st' = jsonData st
      end
  end.
Proof.
  intros Hfile. unfold processCSV. rewrite Hfile.
  destruct (nonblankLines text) as [|headerLine rows]; [done|].
  unfold bind. simpl.
  destruct (convertRows _ _ _ _ _ _ _ _ _ _) as [[transformed|] t']; done.
Qed.

(** C7.  A conversion that reports success leaves as many records as the
    file has non-blank lines, less the header line, whatever blank lines
    lie between them; and with at least one section and one non-blank line
    the conversion does report success. *)
Theorem processCSV_record_count :
  forall clock st text t,
    file st = Some text ->
    let st' := fst (processCSV clock st t) in
    (stype (status st') = "success" ->
     length (jsonData st') = length (nonblankLines text) - 1)
    /\ (sections st <> [] -> nonblankLines text <> [] ->
        stype (status st') = "success"
        /\ length (jsonData st') = length (nonblankLines text) - 1).
Proof.
  intros clock st text t Hfile st'.
  pose proof (processCSV_outcome clock st text t Hfile) as Hout.
  fold st' in Hout.
  destruct (nonblankLines text) as [|headerLine rows].
  { destruct Hout as [Hst _]. split; [by rewrite Hst|done]. }
  destruct (fst (convertRows _ _ _ _ _ _ _ _ _ _)) as [transformed|] eqn:E.
  - destruct Hout as [Hst Hdata]. apply convertRows_length in E.
    rewrite Hst, Hdata, E. simpl. split; intros; [lia|split; [done|lia]].
  - destruct Hout as [Hst _]. split; [by rewrite Hst|].
    intros Hne _.
    destruct (convertRows_total clock (sections st) (columnMap st)
                (titlePattern st) (headersOfLine headerLine) rows Hne
                1 ∅ [] t) as [out Hsome].
    congruence.
Qed.

Lemma processCSV_record_count_witness :
  length
    (jsonData
       (fst (processCSV sampleClock
               (selected
                  (fileOfLines ["name,age"; ""; "Alice,30"; "   "; "Bob,25"; ""])
                  "{title}") 0)))
  = 2.
Proof.
  apply (proj2 (processCSV_record_count sampleClock
                  (selected
                     (fileOfLines
                        ["name,age"; ""; "Alice,30"; "   "; "Bob,25"; ""])
                     "{title}")
                  _ 0 eq_refl)).
  - intros H. discriminate H.
  - intros H. vm_compute in H. discriminate H.
Defined.

Lemma convertedMessage_not_empty_error n :
  convertedMessage n <> "CSV file is empty or malformed.".
Proof.
  intros H. apply (f_equal (String.substring 1 1)) in H.
  vm_compute in H. discriminate.
Qed.

(** C10.  A file whose only non-blank line is the header line converts
    with the success status [Converted 0 rows.] and the empty record set;
    the status [CSV file is empty or malformed.] is reported exactly when
    the file has no non-blank line. *)
Theorem processCSV_header_only :
  forall clock st text t,
    file st = Some text ->
    let st' := fst (processCSV clock st t) in
    (forall headerLine,
        nonblankLines text = [headerLine] ->
        status st' = mkStatus "success" "Converted 0 rows."
        /\ jsonData st' = [])
    /\ (message (status st') = "CSV file is empty or malformed."
        <-> nonblankLines text = []).
Proof.
  intros clock st text t Hfile st'.
  pose proof (processCSV_outcome clock st text t Hfile) as Hout.
  fold st' in Hout. split.
  - intros headerLine Hlines. rewrite Hlines in Hout. simpl in Hout.
    exact Hout.
  - destruct (nonblankLines text) as [|headerLine rows].
    { destruct Hout as [-> _]. done. }
    destruct (fst (convertRows _ _ _ _ _ _ _ _ _ _)) as [transformed|];
      destruct Hout as [-> _]; simpl; split; try done.
    all: intros H; by apply convertedMessage_not_empty_error in H.
Qed.

Lemma processCSV_header_only_witness :
  status (fst (processCSV sampleClock
                 (selected (fileOfLines [""; "name,age"; "  "]) "{title}") 0))
  = mkStatus "success" "Converted 0 rows."
  /\ jsonData (fst (processCSV sampleClock
                      (selected (fileOfLines [""; "name,age"; "  "]) "{title}")
                      0)) = [].
Proof.
  apply (proj1 (processCSV_header_only sampleClock
                  (selected (fileOfLines [""; "name,age"; "  "]) "{title}")
                  _ 0 eq_refl) "name,age").
  vm_compute. reflexivity.
Defined.

(** ** Determinism of a conversion *)

Section Determinism.
Variables clock1 clock2 : nat -> Date.

Lemma resolveToken_timeless token row headers i t1 t2 :
  timelessToken clock1 clock2 token ->
  fst (resolveToken clock1 token row headers i t1)
  = fst (resolveToken clock2 token row headers i t2).
Proof.
  intros Htl. unfold resolveToken.
  destruct (String.eqb (JS.trim token) "title"); [done|].
  destruct (String.eqb (JS.trim token) "index"); [done|].
  destruct (String.eqb (JS.trim token) "timestamp") eqn:Ets.
  { destruct Htl as [Hno|Hfrozen]; [congruence|apply Hfrozen]. }
  destruct (JS.startsWith "column:" _).
  { by destruct (JS.trim (JS.slice_from 7 _)). }
  destruct (JS.startsWith "column_" _); [|done].
  by destruct (JS.trim (JS.slice_from 7 _)).
Qed.

Lemma substituteTokens_timeless row headers i tokens :
  Forall (fun raw => timelessToken clock1 clock2 (JS.slice_1_m1 raw)) tokens ->
  forall result t1 t2,
    fst (substituteTokens clock1 row headers i tokens result t1)
    = fst (substituteTokens clock2 row headers i tokens result t2).
Proof.
  induction 1 as [|raw rest Hraw _ IH]; intros result t1 t2; [done|].
  simpl. unfold bind, substituteToken, bind.
  pose proof (resolveToken_timeless (JS.slice_1_m1 raw) row headers i t1 t2
                Hraw) as Hval.
  destruct (resolveToken clock1 _ _ _ _ t1) as [v1 t1'].
  destruct (resolveToken clock2 _ _ _ _ t2) as [v2 t2'].
  simpl in Hval. subst v2. simpl. apply IH.
Qed.

Lemma buildTitleFromPattern_timeless pattern row headers i t1 t2 :
  noTimestampToken pattern = true \/ frozenTimestamps clock1 clock2 ->
  fst (buildTitleFromPattern clock1 pattern row headers i t1)
  = fst (buildTitleFromPattern clock2 pattern row headers i t2).
Proof.
  intros Hp. unfold buildTitleFromPattern.
  destruct (JS.trim pattern); [done|].
  assert (Forall (fun raw => timelessToken clock1 clock2 (JS.slice_1_m1 raw))
            (JS.match_tokens pattern)) as Htokens.
  { apply Forall_forall. intros raw Hraw. destruct Hp as [Hp|Hp].
    - left. unfold noTimestampToken in Hp.
      rewrite forallb_forall in Hp.
      apply list_elem_of_In, Hp in Hraw. by apply negb_true_iff in Hraw.
    - by right. }
  destruct (JS.match_tokens pattern) as [|raw rest]; [done|].
  by apply substituteTokens_timeless.
Qed.

Lemma convertRows_timeless secs cmap pattern headers lines :
  noTimestampToken pattern = true \/ frozenTimestamps clock1 clock2 ->
  forall i counts transformed t1 t2,
    fst (convertRows clock1 secs cmap pattern headers lines i counts
           transformed t1)
    = fst (convertRows clock2 secs cmap pattern headers lines i counts
             transformed t2).
Proof.
  intros Hp.
  induction lines as [|line rest IH]; intros i counts transformed t1 t2;
    [done|].
  simpl. destruct (placeHeaders _ _ _ _ _) as [sd|]; [|done].
  unfold bind.
  pose proof (buildTitleFromPattern_timeless pattern
                (buildRow headers
                   (fitValues (length headers) (parseCSVLine line)))
                headers i t1 t2 Hp) as Hbase.
  destruct (buildTitleFromPattern clock1 _ _ _ _ t1) as [b1 t1'].
  destruct (buildTitleFromPattern clock2 _ _ _ _ t2) as [b2 t2'].
  simpl in Hbase. subst b2.
  destruct (countTitle counts b1) as [counts' finalTitle]. apply IH.
Qed.

Lemma processCSV_timeless st t1 t2 :
  noTimestampToken (titlePattern st) = true
  \/ frozenTimestamps clock1 clock2 ->
  fst (processCSV clock1 st t1) = fst (processCSV clock2 st t2).
Proof.
  intros Hp. unfold processCSV.
  destruct (file st) as [text|]; [|done].
  destruct (nonblankLines text) as [|headerLine rows]; [done|].
  unfold bind. cbn [sections columnMap titlePattern setStatus setIsProcessing].
  pose proof (convertRows_timeless (sections st) (columnMap st)
                (titlePattern st) (headersOfLine headerLine) rows Hp
                1 ∅ [] t1 t2) as Hrows.
  destruct (convertRows clock1 _ _ _ _ _ _ _ _ t1) as [r1 t1'].
  destruct (convertRows clock2 _ _ _ _ _ _ _ _ t2) as [r2 t2'].
  simpl in Hrows. subst r2. by destruct r1.
Qed.

(** A conversion reads the file, the sections, the column map and the
    pattern, and none of what it writes. *)
Lemma processCSV_again st t1 t2 :
  noTimestampToken (titlePattern st) = true
  \/ frozenTimestamps clock1 clock2 ->
  fst (processCSV clock2 (fst (processCSV clock1 st t1)) t2)
  = fst (processCSV clock1 st t1).
Proof.
  intros Hp. destruct st as [f hs jd stt ip mc secs cm pat].
  unfold processCSV. cbn [file].
  destruct f as [text|]; [|done].
  destruct (nonblankLines text) as [|headerLine rows] eqn:Hlines.
  { cbn. by rewrite Hlines. }
  unfold bind. cbn [sections columnMap titlePattern setStatus setIsProcessing].
  pose proof (convertRows_timeless secs cm pat (headersOfLine headerLine)
                rows Hp 1 ∅ [] t1 t2) as Hrows.
  destruct (convertRows clock1 _ _ _ _ _ _ _ _ t1) as [r1 t1'].
  simpl in Hrows.
  destruct r1 as [transformed|]; cbn; rewrite Hlines;
    destruct (convertRows clock2 _ _ _ _ _ _ _ _ t2) as [r2 t2'];
    simpl in Hrows; by subst r2.
Qed.
End Determinism.

(** A conversion reads nothing of the state but the file, the sections,
    the column map and the pattern. *)
Lemma processCSV_frame clock st st' t :
  file st' = file st ->
  sections st' = sections st ->
  columnMap st' = columnMap st ->
  titlePattern st' = titlePattern st ->
  status (fst (processCSV clock st' t)) = status (fst (processCSV clock st t))
  /\ (stype (status (fst (processCSV clock st t))) = "success" ->
      jsonData (fst (processCSV clock st' t))
      = jsonData (fst (processCSV clock st t))
      /\ detectedHeaders (fst (processCSV clock st' t))
         = detectedHeaders (fst (processCSV clock st t)))
  /\ (stype (status (fst (processCSV clock st t))) <> "success" ->
      jsonData (fst (processCSV clock st' t)) = jsonData st'
      /\ detectedHeaders (fst (processCSV clock st' t)) = detectedHeaders st').
Proof.
  destruct st as [f hs jd stt ip mc secs cm pat].
  destruct st' as [f' hs' jd' stt' ip' mc' secs' cm' pat'].
  simpl. intros -> -> -> ->. unfold processCSV. cbn [file].
  destruct f as [text|]; [|by repeat split].
  destruct (nonblankLines text) as [|headerLine rows]; [by repeat split|].
  unfold bind. cbn [sections columnMap titlePattern setStatus setIsProcessing].
  destruct (convertRows clock _ _ _ _ _ _ _ _ t) as [[transformed|] t'];
    by repeat split.
Qed.

(** C9.  A conversion is a function of the file text, the sections, the
    column map and the title pattern, when the pattern holds no time-stamp
    token or the time stamps are frozen.  Two conversions of one state,
    under any two clocks and from any two readings of them, end in the same
    state, and converting again from the state a conversion left changes
    nothing.  From any other state that has the same file, sections, column
    map and pattern, whatever its records, headers and status, a conversion
    reports the same status, and on success leaves the same records and
    headers; when it fails it leaves the records and headers it found. *)
Theorem processCSV_idempotent :
  forall clock1 clock2 st t1 t2,
    noTimestampToken (titlePattern st) = true
    \/ frozenTimestamps clock1 clock2 ->
    let st1 := fst (processCSV clock1 st t1) in
    fst (processCSV clock2 st t2) = st1
    /\ fst (processCSV clock2 st1 t2) = st1
    /\ forall st',
         file st' = file st ->
         sections st' = sections st ->
         columnMap st' = columnMap st ->
         titlePattern st' = titlePattern st ->
         let st2 := fst (processCSV clock2 st' t2) in
         status st2 = status st1
         /\ (stype (status st1) = "success" ->
             jsonData st2 = jsonData st1
             /\ detectedHeaders st2 = detectedHeaders st1)
         /\ (stype (status st1) <> "success" ->
             jsonData st2 = jsonData st'
             /\ detectedHeaders st2 = detectedHeaders st').
Proof.
  intros clock1 clock2 st t1 t2 Hp st1. subst st1. split; [|split].
  - symmetry. by apply processCSV_timeless.
  - by apply processCSV_again.
  - intros st' Hfile Hsecs Hmap Hpat st2. subst st2.
    rewrite (processCSV_timeless clock1 clock2 st t1 t2 Hp).
    by apply processCSV_frame.
Qed.

Lemma processCSV_idempotent_witness :
  fst (processCSV (fun n => sampleClock (2 * n)) scenarioSelected 7)
  = fst (processCSV sampleClock scenarioSelected 0)
  /\ fst (processCSV (fun n => sampleClock (2 * n))
            (fst (processCSV sampleClock scenarioSelected 0)) 7)
     = fst (processCSV sampleClock scenarioSelected 0)
  /\ jsonData
       (fst (processCSV (fun n => sampleClock (2 * n))
               (setStatus (mkStatus "error" "stale")
                  (setDetectedHeaders ["old"]
                     (setJsonData [mkRecord "old" "" []] scenarioSelected)))
               7))
     = jsonData (fst (processCSV sampleClock scenarioSelected 0)).
Proof.
  destruct (processCSV_idempotent sampleClock (fun n => sampleClock (2 * n))
              scenarioSelected 0 7 (or_introl eq_refl))
    as (Hsame & Hagain & Hframe).
  split; [exact Hsame|]. split; [exact Hagain|].
  destruct (Hframe (setStatus (mkStatus "error" "stale")
                      (setDetectedHeaders ["old"]
                         (setJsonData [mkRecord "old" "" []]
                            scenarioSelected)))
              eq_refl eq_refl eq_refl eq_refl) as (_ & Hok & _).
  apply Hok. vm_compute. reflexivity.
Defined.

(** ** Title pattern resolver: the scenario *)

Lemma trimEnd_cons_nonspace c s :
  JS.is_space c = false -> JS.trimEnd (String c s) = String c (JS.trimEnd s).
Proof. intros Hc. simpl. rewrite Hc. by destruct (JS.trimEnd s). Qed.

Lemma trimEnd_empty_trimStart s : JS.trimEnd s = "" -> JS.trimStart s = "".
Proof.
  induction s as [|c r IH]; simpl; [done|].
  destruct (JS.trimEnd r); [|done].
  destruct (JS.is_space c); [|done]. intros _. by apply IH.
Qed.

Lemma trimEnd_idempotent s : JS.trimEnd (JS.trimEnd s) = JS.trimEnd s.
Proof.
  induction s as [|c r IH]; simpl; [done|].
  destruct (JS.trimEnd r) as [|c' e] eqn:E.
  - destruct (JS.is_space c) eqn:Hc; [done|]. simpl. by rewrite Hc.
  - change (JS.trimEnd (String c (String c' e)) = String c (String c' e)).
    cbn [JS.trimEnd] in IH |- *. by rewrite IH.
Qed.

Lemma trimStart_trimEnd s :
  JS.trimStart (JS.trimEnd s) = JS.trimEnd (JS.trimStart s).
Proof.
  induction s as [|c r IH]; [done|].
  destruct (JS.is_space c) eqn:Hc.
  - cbn [JS.trimStart]. rewrite Hc, <- IH. cbn [JS.trimEnd].
    destruct (JS.trimEnd r) as [|c' e] eqn:E.
    + by rewrite Hc.
    + cbn [JS.trimStart]. by rewrite Hc.
  - cbn [JS.trimStart]. rewrite Hc, trimEnd_cons_nonspace by done.
    cbn [JS.trimStart]. by rewrite Hc.
Qed.


Lemma toLowerCase_nonempty s : s <> "" -> JS.toLowerCase s <> "".
Proof. by destruct s. Qed.

Lemma find_lowercased target (headers : list string) :
  Forall (fun h => JS.toLowerCase h = h) headers ->
  target ∈ headers ->
  find (fun h => String.eqb (JS.toLowerCase h) target) headers = Some target.
Proof.
  induction 1 as [|h rest Hh _ IH]; intros Hin.
  - by apply not_elem_of_nil in Hin.
  - simpl. rewrite Hh. destruct (String.eqb h target) eqn:E.
    + by apply String.eqb_eq in E as ->.
    + apply String.eqb_neq in E.
      apply elem_of_cons in Hin as [->|Hin]; [done|]. by apply IH.
Qed.

Lemma append_cons c s1 s2 : String c s1 +:+ s2 = String c (s1 +:+ s2).
Proof. reflexivity. Qed.

Lemma append_empty s : "" +:+ s = s.
Proof. reflexivity. Qed.

(** The value under a header that the row holds, or that names nothing
    inherited. *)
Lemma valueOfFound_own row h :
  h <> "" ->
  is_Some (row !! h) \/ isPrototypeMember h = false ->
  valueOfFound row (Some h) = default "" (row !! h).
Proof.
  intros Hne Hown. unfold valueOfFound.
  destruct h as [|c r]; [done|].
  destruct (row !! String c r) as [v|]; [done|].
  destruct Hown as [[v Hv]|Hmember]; [done|].
  unfold inheritedText. rewrite Hmember.
  apply not_true_iff_false in Hmember.
  destruct (String.eqb (String c r) "__proto__") eqn:E; [|done].
  apply String.eqb_eq in E. rewrite E in Hmember. by destruct Hmember.
Qed.





(** ** Exporters *)

Lemma canExport_iff st :
  canExport st = true <-> jsonData st <> [] /\ sections st <> [].
Proof.
  unfold canExport.
  rewrite andb_true_iff, !negb_true_iff, !Nat.eqb_neq.
  by rewrite !length_zero_iff_nil.
Qed.

(** C5 (as amended).  [downloadJSON] hands over a file, holding the whole
    record array pretty-printed with an indent of two, exactly when the
    record set and the section list are both non-empty; otherwise it hands
    over nothing, reports the error status and opens the blocking modal,
    and leaves the records as they were. *)
Theorem downloadJSON_needs_records_and_sections :
  forall clock st t,
    let result := fst (downloadJSON clock st t) in
    (jsonData st <> [] /\ sections st <> [] ->
     snd result
     = Some (mkDownload
               ("exported-data-" +:+ fst (fileTimestamp clock t) +:+ ".json")
               "application/json"
               (JSON.stringify2
                  (JSON.JArray (map JSON.of_record (jsonData st)))))
     /\ status (fst result) = mkStatus "success" "JSON download started.")
    /\ (jsonData st = [] \/ sections st = [] ->
        snd result = None
        /\ stype (status (fst result)) = "error"
        /\ is_Some (modalContent (fst result))
        /\ jsonData (fst result) = jsonData st).
Proof.
  intros clock st t result. subst result. unfold downloadJSON. split.
  - intros Hok. pose proof Hok as [Hdata _].
    apply canExport_iff in Hok. rewrite Hok.
    unfold fileTimestamp, bind, newDate, ret. cbn [negb].
    destruct (length (jsonData st) =? 0) eqn:El; [|done].
    by apply Nat.eqb_eq, length_zero_iff_nil in El.
  - intros Hbad.
    assert (canExport st = false) as ->.
    { apply not_true_is_false. rewrite canExport_iff. tauto. }
    simpl. repeat split. by eexists.
Qed.

Lemma downloadJSON_needs_records_and_sections_witness :
  is_Some (snd (fst (downloadJSON sampleClock convertedScenario 3)))
  /\ snd (fst (downloadJSON sampleClock convertedWithoutSections 3)) = None.
Proof.
  split.
  - destruct (proj1 (downloadJSON_needs_records_and_sections sampleClock
                       convertedScenario 3)) as [Hfile _].
    + split; intros H; vm_compute in H; discriminate H.
    + rewrite Hfile. eexists. reflexivity.
  - apply (proj2 (downloadJSON_needs_records_and_sections sampleClock
                    convertedWithoutSections 3)).
    right. vm_compute. reflexivity.
Defined.

(** C5, counterexample.  After the scenario is converted and its only
    section removed, the record set holds two records, and [downloadJSON]
    still hands over no file: the empty section list blocks the export. *)
Lemma downloadJSON_blocked_without_sections :
  length (jsonData convertedWithoutSections) = 2
  /\ sections convertedWithoutSections = []
  /\ fst (downloadJSON sampleClock convertedWithoutSections 3)
     = (setStatus (mkStatus "error" "No sections defined.")
          (setModalContent
             (Some (mkModal "Export Error"
                      "Cannot export because no sections are defined. Please add at least one section before exporting."))
             convertedWithoutSections),
        None).
Proof. repeat split; vm_compute; reflexivity. Qed.

Lemma csvEscape_wrapped value :
  wrappedInQuotes (csvEscape value)
  /\ csvEscape value = dq +:+ JS.double_quotes value +:+ dq.
Proof. split; [by eexists|reflexivity]. Qed.

Lemma double_quotes_paired value : quotesPaired (JS.double_quotes value) = true.
Proof.
  induction value as [|c r IH]; simpl; [done|].
  destruct (c =? JS.dquote)%char eqn:E.
  - cbn [quotesPaired]. change (JS.dquote =? JS.dquote)%char with true.
    by rewrite IH.
  - cbn [quotesPaired]. by rewrite E.
Qed.

Lemma csvFields_length clock pattern headers item idx t :
  length (fst (csvFields clock pattern headers item idx t)) = 10.
Proof.
  unfold csvFields, bind, newDate, ret.
  by destruct (buildTitleFromPattern _ _ _ _ _ _).
Qed.

Lemma csvRecordRows_escaped clock pattern headers items : forall idx t,
  length (fst (csvRecordRows clock pattern headers items idx t)) = length items
  /\ Forall (fun line =>
               exists fields, length fields = 10
                              /\ line = JS.join "," (map csvEscape fields))
       (fst (csvRecordRows clock pattern headers items idx t)).
Proof.
  induction items as [|item rest IH]; intros idx t; simpl; [by split|].
  unfold bind.
  pose proof (csvFields_length clock pattern headers item idx t) as Hlen.
  destruct (csvFields clock pattern headers item idx t) as [fields t'].
  destruct (IH (S idx) t') as [IHlen IHall].
  destruct (csvRecordRows clock pattern headers rest (S idx) t') as [rows t''].
  simpl in *. split; [by rewrite IHlen|].
  constructor; [by exists fields|done].
Qed.

(** C6 (as amended).  The first line of the export is the fixed header row,
    written without quotes.  Every line after it, one a record, is the
    comma-joined list of ten escaped fields; an escaped field begins and
    ends with a double quote, and between them every double quote of the
    value is doubled, whether or not the value needed quoting. *)
Theorem csvRows_record_fields_escaped :
  forall clock st t,
    let rows := fst (csvRows clock st t) in
    head rows
    = Some "content,title,route_url,published_at,data,status,sites,locale,taxonomy_terms,created_at"
    /\ length (tail rows) = length (jsonData st)
    /\ Forall (fun line =>
                 exists fields, length fields = 10
                                /\ line = JS.join "," (map csvEscape fields))
         (tail rows)
    /\ (forall value,
           wrappedInQuotes (csvEscape value)
           /\ csvEscape value = dq +:+ JS.double_quotes value +:+ dq
           /\ quotesPaired (JS.double_quotes value) = true).
Proof.
  intros clock st t rows. subst rows. unfold csvRows, bind.
  destruct (csvRecordRows_escaped clock (titlePattern st) (detectedHeaders st)
              (jsonData st) 0 t) as [Hlen Hall].
  destruct (csvRecordRows clock _ _ _ 0 t) as [rows t']. simpl in *.
  repeat split; try done.
  - by eexists.
  - apply double_quotes_paired.
Qed.

(** C6, counterexample.  In the export of the converted scenario the first
    line is the header row, and its comma-separated fields carry no quotes:
    not every line of the export has its fields wrapped in double quotes. *)
Lemma csvRows_header_unquoted :
  ~ Forall lineFieldsWrapped (fst (csvRows sampleClock convertedScenario 0)).
Proof.
  intros H.
  remember (fst (csvRows sampleClock convertedScenario 0)) as rows eqn:Erows.
  vm_compute in Erows. subst rows.
  apply Forall_inv in H. rename H into Hheader.
  unfold lineFieldsWrapped in Hheader. vm_compute JS.split_on in Hheader.
  apply Forall_inv in Hheader. destruct Hheader as [body Hbody].
  discriminate Hbody.
Qed.


(** * Further properties *)

(** ** Strings *)

Lemma append_empty_r s : s +:+ "" = s.
Proof. induction s as [|c r IH]; [done|]. by rewrite append_cons, IH. Qed.

Lemma append_assoc s1 s2 s3 : (s1 +:+ s2) +:+ s3 = s1 +:+ (s2 +:+ s3).
Proof.
  induction s1 as [|c r IH]; [done|]. by rewrite !append_cons, IH.
Qed.

Lemma length_append s1 s2 :
  String.length (s1 +:+ s2) = String.length s1 + String.length s2.
Proof.
  induction s1 as [|c r IH]; [done|]. rewrite append_cons. simpl.
  by rewrite IH.
Qed.

Lemma trimStart_idempotent s : JS.trimStart (JS.trimStart s) = JS.trimStart s.
Proof.
  induction s as [|c r IH]; [done|]. simpl.
  destruct (JS.is_space c) eqn:Hc; [done|]. simpl. by rewrite Hc.
Qed.

Lemma trim_idempotent s : JS.trim (JS.trim s) = JS.trim s.
Proof.
  unfold JS.trim.
  by rewrite trimStart_trimEnd, trimStart_idempotent, trimEnd_idempotent.
Qed.

Lemma lower_char_idempotent c : JS.lower_char (JS.lower_char c) = JS.lower_char c.
Proof. by destruct c as [[] [] [] [] [] [] [] []]. Qed.

Lemma toLowerCase_idempotent s :
  JS.toLowerCase (JS.toLowerCase s) = JS.toLowerCase s.
Proof.
  induction s as [|c r IH]; [done|]. simpl.
  by rewrite lower_char_idempotent, IH.
Qed.

Lemma split_on_nonempty sep s : JS.split_on sep s <> [].
Proof.
  destruct s as [|c r]; [done|]. simpl.
  destruct (c =? sep)%char; [done|]. by destruct (JS.split_on sep r).
Qed.

Lemma toLowerCase_append s1 s2 :
  JS.toLowerCase (s1 +:+ s2) = JS.toLowerCase s1 +:+ JS.toLowerCase s2.
Proof.
  induction s1 as [|c r IH]; [done|]. rewrite append_cons. simpl.
  by rewrite IH.
Qed.

Lemma toLowerCase_String_of_nat n :
  JS.toLowerCase (JS.String_of_nat n) = JS.String_of_nat n.
Proof.
  unfold JS.String_of_nat.
  induction (Nat.to_uint n) as [|d IH|d IH|d IH|d IH|d IH|d IH|d IH|d IH|d IH|d IH];
    simpl; [done|by rewrite IH..].
Qed.

(** ** Line parser *)

Lemma parseCSVLine_go_unquoted line : forall cur result,
  hasChar JS.dquote line = false ->
  parseCSVLine_go line cur false result
  = result ++ match JS.split_on "," line with
              | x :: xs => (cur +:+ x) :: xs
              | [] => [cur]
              end.
Proof.
  induction line as [|ch rest IH]; intros cur result Hq; simpl.
  - by rewrite append_empty_r.
  - simpl in Hq. apply orb_false_iff in Hq as [Hch Hrest].
    rewrite Hch. destruct (ch =? ",")%char eqn:Hcomma; simpl.
    + rewrite IH by done.
      pose proof (split_on_nonempty "," rest) as Hne.
      destruct (JS.split_on "," rest) as [|x xs]; [done|].
      by rewrite <- app_assoc, append_empty_r.
    + rewrite IH by done.
      pose proof (split_on_nonempty "," rest) as Hne.
      destruct (JS.split_on "," rest) as [|x xs]; [done|].
      by rewrite append_assoc.
Qed.

(** X1.  On a line without a double quote, [parseCSVLine] is the split at
    the commas followed by the trimming of every piece. *)
Theorem parseCSVLine_unquoted :
  forall line,
    hasChar JS.dquote line = false ->
    parseCSVLine line = map JS.trim (JS.split_on "," line).
Proof.
  intros line Hq. unfold parseCSVLine.
  rewrite parseCSVLine_go_unquoted by done.
  pose proof (split_on_nonempty "," line) as Hne.
  by destruct (JS.split_on "," line).
Qed.

Lemma parseCSVLine_unquoted_witness :
  parseCSVLine " Alice , 30,,x " = map JS.trim (JS.split_on "," " Alice , 30,,x ").
Proof. apply parseCSVLine_unquoted. vm_compute. reflexivity. Defined.

(** Induction on a string that may step over two characters. *)
Lemma string_ind2 (P : string -> Prop) :
  P "" ->
  (forall c, P (String c "")) ->
  (forall c c' r, P r -> P (String c' r) -> P (String c (String c' r))) ->
  forall s, P s.
Proof.
  intros H0 H1 H2 s.
  assert (P s /\ forall c, P (String c s)) as [Hs _]; [|done].
  induction s as [|a r [IHr IHcons]]; [by split|].
  split; [apply IHcons|]. intros c. by apply H2.
Qed.

Lemma parseCSVLine_go_cons ch rest cur inQuotes result :
  parseCSVLine_go (String ch rest) cur inQuotes result
  = if (ch =? JS.dquote)%char then
      match rest with
      | String ch' rest' =>
          if (ch' =? JS.dquote)%char
          then parseCSVLine_go rest' (cur +:+ String JS.dquote EmptyString)
                 inQuotes result
          else parseCSVLine_go rest cur (negb inQuotes) result
      | EmptyString => parseCSVLine_go rest cur (negb inQuotes) result
      end
    else if ((ch =? ",")%char && negb inQuotes)%bool
    then parseCSVLine_go rest EmptyString inQuotes (result ++ [cur])
    else parseCSVLine_go rest (cur +:+ String ch EmptyString) inQuotes result.
Proof. reflexivity. Qed.

Lemma parseCSVLine_go_nonempty line : forall cur inQuotes result,
  parseCSVLine_go line cur inQuotes result <> [].
Proof.
  induction line as [|ch|ch ch' rest IHrest IHcons] using string_ind2;
    intros cur inQuotes result.
  - simpl. by destruct result.
  - simpl. destruct (ch =? JS.dquote)%char; [by destruct result|].
    destruct (_ && _)%bool; simpl; [by destruct result|by destruct result].
  - rewrite parseCSVLine_go_cons. cbv iota.
    destruct (ch =? JS.dquote)%char.
    + destruct (ch' =? JS.dquote)%char; [apply IHrest|apply IHcons].
    + destruct (_ && _)%bool; apply IHcons.
Qed.

(** The fields of a parsed line: at least one, each trimmed. *)
Lemma parseCSVLine_nonempty_trimmed :
  forall line,
    parseCSVLine line <> []
    /\ Forall (fun field => JS.trim field = field) (parseCSVLine line).
Proof.
  intros line. unfold parseCSVLine. split.
  - pose proof (parseCSVLine_go_nonempty line "" false []) as Hne.
    by destruct (parseCSVLine_go line "" false []).
  - apply Forall_map, Forall_forall. intros field _. apply trim_idempotent.
Qed.

(** X2.  [parseCSVLine] returns at least one field for every line, the
    empty line included, and every field it returns is trimmed: trimming it
    again changes nothing. *)
Theorem parseCSVLine_fields_trimmed :
  forall line,
    parseCSVLine line <> []
    /\ Forall (fun field => JS.trim field = field) (parseCSVLine line).
Proof. exact parseCSVLine_nonempty_trimmed. Qed.

(** ** Header resolver *)

Lemma headersOfLine_lookup line i h :
  headersOfLine line !! i = Some h ->
  exists field,
    parseCSVLine line !! i = Some field
    /\ h = JS.toLowerCase
             (match field with
              | EmptyString => "column_" +:+ JS.String_of_nat (i + 1)
              | _ => field
              end).
Proof.
  unfold headersOfLine. intros H.
  change (map JS.toLowerCase ?l) with (JS.toLowerCase <$> l) in H.
  apply list_lookup_fmap_Some in H as (x & -> & Hx).
  apply list_lookup_imap_Some in Hx as (field & Hfield & ->).
  by exists field.
Qed.

(** X3.  The header list of a line has one header for every field of the
    line, hence at least one; no header is empty, a blank field taking the
    name [column_] followed by its position counted from one; and every
    header is in lower case. *)
Theorem headersOfLine_wellformed :
  forall line,
    length (headersOfLine line) = length (parseCSVLine line)
    /\ headersOfLine line <> []
    /\ Forall (fun h => h <> "" /\ JS.toLowerCase h = h) (headersOfLine line)
    /\ (forall i,
           parseCSVLine line !! i = Some "" ->
           headersOfLine line !! i
           = Some ("column_" +:+ JS.String_of_nat (i + 1))).
Proof.
  intros line.
  assert (length (headersOfLine line) = length (parseCSVLine line)) as Hlen.
  { unfold headersOfLine. by rewrite List.length_map, length_imap. }
  split; [done|]. split; [|split].
  - intros Hnil. rewrite Hnil in Hlen.
    destruct (parseCSVLine_nonempty_trimmed line) as [Hne _].
    by destruct (parseCSVLine line).
  - apply Forall_forall. intros h [i Hi]%list_elem_of_lookup.
    apply headersOfLine_lookup in Hi as (field & _ & ->).
    split; [|apply toLowerCase_idempotent].
    apply toLowerCase_nonempty. by destruct field.
  - intros i Hi.
    destruct (headersOfLine line !! i) as [h|] eqn:Hh.
    + apply headersOfLine_lookup in Hh as (field & Hfield & ->).
      rewrite Hi in Hfield. injection Hfield as <-.
      by rewrite toLowerCase_append, toLowerCase_String_of_nat.
    + apply lookup_ge_None in Hh. apply lookup_lt_Some in Hi. lia.
Qed.

Lemma headersOfLine_wellformed_witness :
  headersOfLine "Name,, AGE " !! 1 = Some "column_2".
Proof.
  apply (proj2 (proj2 (proj2 (headersOfLine_wellformed "Name,, AGE ")))).
  vm_compute. reflexivity.
Defined.

(** ** Escaped fields read back by the line parser *)

Lemma parseCSVLine_go_quoted_body value : forall cur rest result,
  noLeadingQuote rest = true ->
  parseCSVLine_go (JS.double_quotes value +:+ String JS.dquote rest) cur true
    result
  = parseCSVLine_go rest (cur +:+ value) false result.
Proof.
  induction value as [|c v IH]; intros cur rest result Hrest.
  - rewrite append_empty, append_empty_r, parseCSVLine_go_cons.
    change (JS.dquote =? JS.dquote)%char with true. cbv iota.
    destruct rest as [|ch' rest']; [done|].
    simpl in Hrest. apply negb_true_iff in Hrest. by rewrite Hrest.
  - simpl. destruct (c =? JS.dquote)%char eqn:Hc.
    + apply Ascii.eqb_eq in Hc as ->.
      rewrite !append_cons, parseCSVLine_go_cons.
      change (JS.dquote =? JS.dquote)%char with true. cbv iota.
      rewrite IH by done. by rewrite append_assoc.
    + rewrite append_cons, parseCSVLine_go_cons, Hc. simpl.
      rewrite andb_false_r, IH by done. by rewrite append_assoc.
Qed.

Lemma parseCSVLine_go_escaped value : forall cur rest result,
  hasOtherThanQuote value = true ->
  noLeadingQuote rest = true ->
  parseCSVLine_go
    (String JS.dquote (JS.double_quotes value +:+ String JS.dquote rest))
    cur false result
  = parseCSVLine_go rest (cur +:+ value) false result.
Proof.
  unfold hasOtherThanQuote.
  induction value as [|c v IH]; intros cur rest result Hv Hrest; [done|].
  simpl in Hv. destruct (c =? JS.dquote)%char eqn:Hc.
  - apply Ascii.eqb_eq in Hc as ->. simpl in Hv.
    simpl JS.double_quotes.
    change (JS.dquote =? JS.dquote)%char with true. cbv iota.
    rewrite !append_cons, parseCSVLine_go_cons.
    change (JS.dquote =? JS.dquote)%char with true. cbv iota.
    etrans; [by apply IH|]. by rewrite append_assoc.
  - rewrite parseCSVLine_go_cons.
    change (JS.dquote =? JS.dquote)%char with true. cbv iota.
    assert (JS.double_quotes (String c v) = String c (JS.double_quotes v))
      as Hdq by (simpl; by rewrite Hc).
    rewrite <- (parseCSVLine_go_quoted_body (String c v)) by done.
    rewrite Hdq, append_cons. by rewrite Hc.
Qed.

Lemma parseCSVLine_go_escaped_line values : forall result,
  values <> [] ->
  Forall (fun v => hasOtherThanQuote v = true) values ->
  parseCSVLine_go (JS.join "," (map csvEscape values)) "" false result
  = result ++ values.
Proof.
  induction values as [|v vs IH]; intros result Hne Hall; [done|].
  apply Forall_cons in Hall as [Hv Hvs].
  destruct vs as [|v' vs'].
  - cbn [JS.join map]. unfold csvEscape.
    rewrite parseCSVLine_go_escaped by done. by rewrite append_empty.
  - change (JS.join "," (map csvEscape (v :: v' :: vs')))
      with (csvEscape v +:+ "," +:+ JS.join "," (map csvEscape (v' :: vs'))).
    unfold csvEscape at 1.
    rewrite append_cons, append_assoc, append_cons, append_empty.
    rewrite parseCSVLine_go_escaped by done.
    rewrite append_cons, append_empty, parseCSVLine_go_cons.
    change ("," =? JS.dquote)%char with false.
    change (("," =? ",")%char && negb false)%bool with true. cbv iota.
    rewrite IH by done. by rewrite <- app_assoc.
Qed.

(** X4.  A line made of escaped fields joined by commas, as the CSV
    exporter writes a record, is read back by [parseCSVLine] as the trimmed
    values, commas and quotes inside the values included, when every value
    holds a character other than the double quote.  The empty value is not
    read back: its escaped form parses to a field holding one quote. *)
Theorem parseCSVLine_csvEscape :
  (forall values,
      values <> [] ->
      Forall (fun v => hasOtherThanQuote v = true) values ->
      parseCSVLine (JS.join "," (map csvEscape values)) = map JS.trim values)
  /\ parseCSVLine (csvEscape "") = [dq].
Proof.
  split; [|by vm_compute].
  intros values Hne Hall. unfold parseCSVLine.
  by rewrite parseCSVLine_go_escaped_line.
Qed.

Lemma parseCSVLine_csvEscape_witness :
  parseCSVLine
    (JS.join "," (map csvEscape ["a,b"; dq +:+ "x" +:+ dq; " y" +:+ dq +:+ dq]))
  = map JS.trim ["a,b"; dq +:+ "x" +:+ dq; " y" +:+ dq +:+ dq].
Proof.
  apply (proj1 parseCSVLine_csvEscape).
  - discriminate.
  - repeat constructor.
Defined.

(** ** Section registry: further laws *)

Lemma filter_id_twice id (secs : list section) :
  filter (fun s => sec_id s <> id) (filter (fun s => sec_id s <> id) secs)
  = filter (fun s => sec_id s <> id) secs.
Proof.
  induction secs as [|s l IH]; [done|].
  rewrite filter_cons. case_decide as Hs; [|done].
  rewrite filter_cons, decide_True by done. by rewrite IH.
Qed.

Lemma head_filter_id id (secs : list section) s :
  head (filter (fun s => sec_id s <> id) secs) = Some s -> sec_id s <> id.
Proof.
  intros H. apply head_Some_elem_of in H.
  by apply list_elem_of_filter in H as [? _].
Qed.

(** X5.  [removeSection] is idempotent: removing an id a second time, as
    when the state updater is run twice, changes neither the section list
    nor the column map. *)
Theorem removeSection_idempotent :
  forall id st, removeSection id (removeSection id st) = removeSection id st.
Proof.
  intros id [f hs jd stt ip mc secs cm pat].
  unfold removeSection, setSections, setColumnMap. simpl.
  rewrite filter_id_twice. f_equal.
  apply map_eq. intros header. rewrite !lookup_fmap.
  destruct (cm !! header) as [v|]; [|done]. simpl. f_equal.
  destruct (decide (v = Some id)) as [->|Hv].
  - destruct (head (filter _ secs)) as [s|] eqn:Hs; simpl; [|done].
    apply head_filter_id in Hs. rewrite decide_False; [done|congruence].
  - by rewrite decide_False.
Qed.

Lemma find_renamed id newName target (secs : list section) :
  find (fun s => String.eqb (sec_id s) target)
    (map (fun s => if String.eqb (sec_id s) id
                   then mkSection (sec_id s) newName (removable s) else s)
       secs)
  = (fun s => if String.eqb (sec_id s) id
              then mkSection (sec_id s) newName (removable s) else s)
      <$> find (fun s => String.eqb (sec_id s) target) secs.
Proof.
  induction secs as [|s l IH]; [done|]. simpl.
  assert (sec_id (if String.eqb (sec_id s) id
                  then mkSection (sec_id s) newName (removable s) else s)
          = sec_id s) as -> by by destruct (String.eqb (sec_id s) id).
  by destruct (String.eqb (sec_id s) target).
Qed.

(** X6.  [renameSection] changes names only: the ids of the sections and
    their order stay, every section of the given id takes the new name and
    every other section keeps its own, the column map is untouched, and
    every header keeps the id of the section it is routed to. *)
Theorem renameSection_keeps_routing :
  forall id newName st,
    let st' := renameSection id newName st in
    map sec_id (sections st') = map sec_id (sections st)
    /\ columnMap st' = columnMap st
    /\ (forall i s,
           sections st !! i = Some s ->
           sections st' !! i
           = Some (mkSection (sec_id s)
                     (if String.eqb (sec_id s) id then newName else sec_name s)
                     (removable s)))
    /\ (forall header,
           sec_id <$> targetSection (sections st') (columnMap st') header
           = sec_id <$> targetSection (sections st) (columnMap st) header).
Proof.
  intros id newName st st'. subst st'. unfold renameSection. simpl.
  split; [|split; [done|split]].
  - rewrite List.map_map. apply List.map_ext. intros s.
    by destruct (String.eqb (sec_id s) id).
  - intros i s Hs.
    change (map ?f ?l) with (f <$> l). rewrite list_lookup_fmap, Hs. simpl.
    destruct s as [sid sname rem]. simpl. by destruct (String.eqb sid id).
  - intros header. unfold targetSection.
    assert (defaultSectionId
              (map (fun s => if String.eqb (sec_id s) id
                             then mkSection (sec_id s) newName (removable s)
                             else s) (sections st))
            = defaultSectionId (sections st)) as ->.
    { unfold defaultSectionId. destruct (sections st) as [|s l]; [done|].
      simpl. by destruct (String.eqb (sec_id s) id). }
    rewrite find_renamed.
    destruct (find _ (sections st)) as [s|]; simpl.
    + by destruct (String.eqb (sec_id s) id).
    + destruct (sections st) as [|s l]; [done|]. simpl.
      by destruct (String.eqb (sec_id s) id).
Qed.

Lemma renameSection_keeps_routing_witness :
  sections (renameSection "main" "base" initialState) !! 0
  = Some (mkSection "main" "base" true).
Proof.
  apply (proj1 (proj2 (proj2 (renameSection_keeps_routing "main" "base"
                                initialState))) 0 mainSection).
  reflexivity.
Defined.

Lemma find_default_head (secs : list section) :
  find (fun s => String.eqb (sec_id s) (defaultSectionId secs)) secs = head secs.
Proof.
  destruct secs as [|s l]; [done|]. unfold defaultSectionId. simpl.
  by rewrite String.eqb_refl.
Qed.

(** X7.  An assignment is keyed by the lower-cased header and read back by
    the conversion.  For a key other than [__proto__]: after
    [setColumnAssignment(header, sectionId)] with a non-empty id the key is
    routed to the first section of that id, when there is one; with the
    empty id the entry is deleted and the key is routed to the first
    section.  Under the key [__proto__] the assignment creates no entry:
    the column map is unchanged and the key stays routed to the first
    section.  The entries of the other headers and the section list are
    untouched in every case. *)
Theorem setColumnAssignment_routes :
  forall header sectionId st,
    let st' := setColumnAssignment header sectionId st in
    let key := JS.toLowerCase header in
    sections st' = sections st
    /\ (forall s,
           key <> "__proto__" ->
           sectionId <> "" ->
           find (fun s => String.eqb (sec_id s) sectionId) (sections st)
           = Some s ->
           targetSection (sections st') (columnMap st') key = Some s)
    /\ (key <> "__proto__" ->
        sectionId = "" ->
        columnMap st' !! key = None
        /\ targetSection (sections st') (columnMap st') key
           = head (sections st))
    /\ (key = "__proto__" ->
        columnMap st' = columnMap st
        /\ (columnMap st !! key = None ->
            targetSection (sections st') (columnMap st') key
            = head (sections st)))
    /\ (forall h, h <> key -> columnMap st' !! h = columnMap st !! h).
Proof.
  intros header sectionId st st' key. subst st'. unfold setColumnAssignment.
  fold key. unfold assignProp, deleteProp.
  assert (forall cmap, cmap !! key = None ->
                       targetSection (sections st) cmap key
                       = head (sections st)) as Hdefault.
  { intros cmap Hnone. unfold targetSection. rewrite Hnone.
    rewrite find_default_head. by destruct (head (sections st)). }
  destruct (String.eqb key "__proto__") eqn:Hkey.
  - apply String.eqb_eq in Hkey.
    destruct sectionId as [|c r]; simpl;
      (split; [done|split; [done|split; [done|split; [|done]]]]).
    + intros _. split; [done|]. apply Hdefault.
    + intros _. split; [done|]. apply Hdefault.
  - apply String.eqb_neq in Hkey.
    destruct sectionId as [|c r]; simpl;
      (split; [done|split; [|split; [|split; [done|]]]]).
    + done.
    + intros _ _. rewrite lookup_delete_eq. split; [done|].
      apply Hdefault, lookup_delete_eq.
    + intros h Hh. by rewrite lookup_delete_ne.
    + intros s _ _ Hfind. unfold targetSection.
      rewrite lookup_insert_eq. by rewrite Hfind.
    + done.
    + intros h Hh. by rewrite lookup_insert_ne.
Qed.

Lemma setColumnAssignment_routes_witness :
  targetSection
    (sections (setColumnAssignment "Name" "extra_1" nameAssignedOfTwo))
    (columnMap (setColumnAssignment "Name" "extra_1" nameAssignedOfTwo))
    (JS.toLowerCase "Name")
  = Some (mkSection "extra_1" "extra" true)
  /\ columnMap (setColumnAssignment "__proto__" "extra_1" nameAssignedOfTwo)
     = columnMap nameAssignedOfTwo.
Proof.
  split.
  - apply (proj1 (proj2 (setColumnAssignment_routes "Name" "extra_1"
                           nameAssignedOfTwo))).
    + discriminate.
    + discriminate.
    + reflexivity.
  - apply (proj1 (proj2 (proj2 (proj2 (setColumnAssignment_routes
                                         "__proto__" "extra_1"
                                         nameAssignedOfTwo))))).
    reflexivity.
Defined.

Lemma find_app_found {A} (f : A -> bool) (l1 l2 : list A) x :
  find f l1 = Some x -> find f (l1 ++ l2) = Some x.
Proof.
  induction l1 as [|a l IH]; [done|]. simpl. by destruct (f a).
Qed.

Lemma find_present (secs : list section) s :
  s ∈ secs ->
  is_Some (find (fun s' => String.eqb (sec_id s') (sec_id s)) secs).
Proof.
  induction 1 as [s l|s s' l _ IH]; simpl.
  - rewrite String.eqb_refl. by eexists.
  - by destruct (String.eqb (sec_id s') (sec_id s)).
Qed.

Lemma targetSection_app secs extra cmap header :
  secs <> [] ->
  refersToSections secs cmap ->
  targetSection (secs ++ extra) cmap header = targetSection secs cmap header.
Proof.
  intros Hne Href. unfold targetSection.
  assert (defaultSectionId (secs ++ extra) = defaultSectionId secs) as ->.
  { by destruct secs. }
  assert (is_Some (find (fun s => String.eqb (sec_id s)
                                    match cmap !! header with
                                    | Some (Some id) => id
                                    | _ => defaultSectionId secs
                                    end) secs)) as [s Hs].
  { destruct (cmap !! header) as [v|] eqn:Hv.
    - destruct (Href header v Hv) as (s & Hin & ->). by apply find_present.
    - rewrite find_default_head. destruct secs; [done|by eexists]. }
  by rewrite (find_app_found _ _ _ _ Hs), Hs.
Qed.

(** X8.  [addSection] ignores a name that is blank after trimming, without
    reading the clock.  Any other name appends exactly one removable
    section, named by the trimmed name, with the id made of the lower-cased
    name, its white-space runs turned into underscores, an underscore and
    the time in base 36; the sections before it, the column map and, when
    every entry refers to a section, the routing of every header are
    unchanged. *)
Theorem addSection_appends :
  forall clock name st t,
    let st' := fst (addSection clock name st t) in
    let t' := snd (addSection clock name st t) in
    (JS.trim name = "" -> st' = st /\ t' = t)
    /\ (JS.trim name <> "" ->
        sections st'
        = sections st
          ++ [mkSection
                (JS.replace_spaces "_" (JS.toLowerCase (JS.trim name))
                 +:+ "_" +:+ JS.toString36 (getTime (clock t)))
                (JS.trim name) true]
        /\ t' = S t)
    /\ columnMap st' = columnMap st
    /\ (sections st <> [] ->
        refersToSections (sections st) (columnMap st) ->
        refersToSections (sections st') (columnMap st')
        /\ forall header,
             targetSection (sections st') (columnMap st') header
             = targetSection (sections st) (columnMap st) header).
Proof.
  intros clock name st t st' t'. subst st' t'. unfold addSection.
  destruct (JS.trim name) as [|c r] eqn:Hname.
  { repeat split; try done. }
  unfold bind, newDate, ret. cbn [fst snd].
  split; [done|]. split; [done|]. split; [done|].
  intros Hne Href. cbn [sections columnMap setSections]. split.
  - intros header v Hv. destruct (Href header v Hv) as (s & Hs & ->).
    exists s. split; [|done]. apply elem_of_app. by left.
  - intros header. by apply targetSection_app.
Qed.

Lemma addSection_appends_witness :
  sections (fst (addSection sampleClock " Extra  Data " initialState 0))
  = [mainSection; mkSection "extra_data_loyw3v28" "Extra  Data" true].
Proof.
  apply (proj1 (proj2 (addSection_appends sampleClock " Extra  Data "
                         initialState 0))).
  vm_compute. discriminate.
Defined.

(** ** Record builder: rows *)

Lemma fitValues_length width values : length (fitValues width values) = width.
Proof.
  unfold fitValues. rewrite length_take, length_app, length_replicate. lia.
Qed.

Lemma fitValues_lookup width values i :
  i < width ->
  fitValues width values !! i = Some (default "" (values !! i)).
Proof.
  intros Hi. unfold fitValues. rewrite lookup_take_lt by done.
  destruct (values !! i) as [v|] eqn:Hv.
  - by rewrite (lookup_app_l_Some _ _ _ _ Hv).
  - apply lookup_ge_None in Hv. rewrite lookup_app_r by done.
    simpl. apply lookup_replicate. split; [done|lia].
Qed.

Lemma assignProp_lookup_eq {V} k (v : V) (o : gmap string V) :
  k <> "__proto__" -> assignProp k v o !! k = Some v.
Proof.
  intros Hk. unfold assignProp. apply String.eqb_neq in Hk as ->.
  apply lookup_insert_eq.
Qed.

Lemma assignProp_lookup_ne {V} k k' (v : V) (o : gmap string V) :
  k <> k' -> assignProp k v o !! k' = o !! k'.
Proof.
  intros Hk. unfold assignProp.
  destruct (String.eqb k "__proto__"); [done|]. by apply lookup_insert_ne.
Qed.

Lemma assignProp_lookup_proto {V} k (v : V) (o : gmap string V) :
  assignProp k v o !! "__proto__" = o !! "__proto__".
Proof.
  unfold assignProp. destruct (String.eqb k "__proto__") eqn:E; [done|].
  apply String.eqb_neq in E. by apply lookup_insert_ne.
Qed.

Lemma buildRow_snoc headers h values :
  buildRow (headers ++ [h]) values
  = assignProp h (default "" (values !! length headers))
      (buildRow headers values).
Proof.
  unfold buildRow. rewrite imap_app, foldl_app. simpl.
  by rewrite Nat.add_0_r.
Qed.

Lemma buildRow_lookup_absent headers values h :
  h ∉ headers -> buildRow headers values !! h = None.
Proof.
  induction headers as [|x l IH] using rev_ind; intros Hh; [done|].
  rewrite buildRow_snoc. apply not_elem_of_app in Hh as [Hl Hx].
  rewrite assignProp_lookup_ne; [by apply IH|].
  intros ->. apply Hx. left.
Qed.

Lemma buildRow_lookup_proto headers values :
  buildRow headers values !! "__proto__" = None.
Proof.
  induction headers as [|x l IH] using rev_ind; [done|].
  by rewrite buildRow_snoc, assignProp_lookup_proto.
Qed.

Lemma buildRow_lookup_last headers values i h :
  headers !! i = Some h ->
  h <> "__proto__" ->
  (forall j, i < j -> headers !! j <> Some h) ->
  buildRow headers values !! h = Some (default "" (values !! i)).
Proof.
  intros Hi Hproto. revert Hi.
  induction headers as [|x l IH] using rev_ind; intros Hi Hlast; [done|].
  rewrite buildRow_snoc.
  destruct (decide (i = length l)) as [->|Hne].
  - rewrite list_lookup_middle in Hi by done. injection Hi as ->.
    by apply assignProp_lookup_eq.
  - assert (i < length l) as Hlt.
    { apply lookup_lt_Some in Hi. rewrite length_app in Hi. simpl in Hi. lia. }
    rewrite lookup_app_l in Hi by done.
    rewrite assignProp_lookup_ne.
    + apply IH; [done|]. intros j Hj Hjh.
      apply (Hlast j Hj). rewrite lookup_app_l; [done|].
      by apply lookup_lt_Some in Hjh.
    + intros ->. apply (Hlast (length l) Hlt).
      by rewrite list_lookup_middle.
Qed.

(** X9.  The row object of a line is forced to the header width: under a
    header other than [__proto__] it holds the field of the line at the
    last position of that header, the empty string when the line has fewer
    fields; the fields beyond the last header are dropped with every key
    that is no header; and the row never has the key [__proto__], also
    when that is a header. *)
Theorem buildRow_fits_header_width :
  forall headers line,
    let row :=
      buildRow headers (fitValues (length headers) (parseCSVLine line)) in
    (forall i h,
        headers !! i = Some h ->
        h <> "__proto__" ->
        (forall j, i < j -> headers !! j <> Some h) ->
        row !! h = Some (default "" (parseCSVLine line !! i)))
    /\ (forall k, k ∉ headers -> row !! k = None)
    /\ row !! "__proto__" = None.
Proof.
  intros headers line row. subst row. split; [|split].
  - intros i h Hi Hproto Hlast.
    rewrite (buildRow_lookup_last _ _ i h Hi Hproto Hlast).
    rewrite fitValues_lookup; [done|]. by apply lookup_lt_Some in Hi.
  - intros k Hk. by apply buildRow_lookup_absent.
  - apply buildRow_lookup_proto.
Qed.

Lemma buildRow_fits_header_width_witness :
  buildRow ["name"; "age"]
    (fitValues (length ["name"; "age"]) (parseCSVLine "Alice")) !! "age"
  = Some (default "" (parseCSVLine "Alice" !! 1)).
Proof.
  apply (proj1 (buildRow_fits_header_width ["name"; "age"] "Alice") 1 "age").
  - reflexivity.
  - discriminate.
  - intros j Hj Hjh. apply lookup_lt_Some in Hjh. simpl in Hjh. lia.
Defined.

(** ** Record builder: sections *)

Lemma Obj_get_overwrite {V} k k' (v : V) o :
  Obj.get k' (Obj.overwrite k v o)
  = if String.eqb k k' then (fun _ => v) <$> Obj.get k o else Obj.get k' o.
Proof.
  induction o as [|[k0 v0] o IH]; simpl; [by destruct (String.eqb k k')|].
  destruct (String.eqb k0 k) eqn:E0.
  - apply String.eqb_eq in E0 as ->. simpl.
    destruct (String.eqb k k'); [done|done].
  - simpl. rewrite IH.
    destruct (String.eqb k k') eqn:E; [|done].
    apply String.eqb_eq in E as <-. by rewrite E0.
Qed.

Lemma Obj_get_insert_index_ne {V} n k k' (v : V) o :
  k <> k' -> Obj.get k' (Obj.insert_index n k v o) = Obj.get k' o.
Proof.
  intros Hne. apply String.eqb_neq in Hne.
  induction o as [|[k0 v0] o IH]; simpl; [by rewrite Hne|].
  destruct (Obj.array_index k0) as [n'|]; [|simpl; by rewrite Hne].
  destruct (n' <? n)%N; simpl; [|by rewrite Hne].
  by rewrite IH.
Qed.

Lemma Obj_get_insert_index_eq {V} n k (v : V) o :
  Obj.get k o = None -> Obj.get k (Obj.insert_index n k v o) = Some v.
Proof.
  induction o as [|[k0 v0] o IH]; simpl; [by rewrite String.eqb_refl|].
  destruct (String.eqb k0 k) eqn:E0; [done|]. intros Hnone.
  destruct (Obj.array_index k0) as [n'|]; [|simpl; by rewrite String.eqb_refl].
  destruct (n' <? n)%N; simpl; [|by rewrite String.eqb_refl].
  rewrite E0. by apply IH.
Qed.

Lemma Obj_get_set {V} k k' (v : V) o :
  Obj.get k' (Obj.set k v o)
  = if (String.eqb k k' && negb (String.eqb k "__proto__"))%bool
    then Some v else Obj.get k' o.
Proof.
  unfold Obj.set. destruct (String.eqb k "__proto__").
  { by rewrite andb_false_r. }
  rewrite andb_true_r. destruct (String.eqb k k') eqn:Ek.
  - apply String.eqb_eq in Ek as <-. destruct (Obj.get k o) as [w|] eqn:E.
    + by rewrite Obj_get_overwrite, String.eqb_refl, E.
    + destruct (Obj.array_index k).
      * by apply Obj_get_insert_index_eq.
      * rewrite Obj_get_app, E. simpl. by rewrite String.eqb_refl.
  - destruct (Obj.get k o) as [w|] eqn:E.
    + by rewrite Obj_get_overwrite, Ek.
    + apply String.eqb_neq in Ek. destruct (Obj.array_index k).
      * by apply Obj_get_insert_index_ne.
      * rewrite Obj_get_app. simpl. apply String.eqb_neq in Ek as ->.
        by destruct (Obj.get k' o).
Qed.

Lemma Obj_get_set_eq {V} k (v : V) o :
  k <> "__proto__" -> Obj.get k (Obj.set k v o) = Some v.
Proof.
  intros Hk. rewrite Obj_get_set, String.eqb_refl.
  by apply String.eqb_neq in Hk as ->.
Qed.

Lemma Obj_get_set_ne {V} k k' (v : V) o :
  k <> k' -> Obj.get k' (Obj.set k v o) = Obj.get k' o.
Proof.
  intros Hk. rewrite Obj_get_set. by apply String.eqb_neq in Hk as ->.
Qed.

Lemma emptySectionsData_go_empty secs : forall sd : Obj.t (Obj.t string),
  (forall n o, Obj.get n sd = Some o -> o = []) ->
  forall n o,
    Obj.get n (foldl (fun sd s => Obj.set (sec_name s) [] sd) sd secs) = Some o ->
    o = [].
Proof.
  induction secs as [|s l IH]; intros sd Hsd; simpl; [done|].
  apply IH. intros n o. rewrite Obj_get_set.
  destruct (_ && _)%bool; [by intros [= <-]|apply Hsd].
Qed.

Lemma emptySectionsData_empty secs n o :
  Obj.get n (emptySectionsData secs) = Some o -> o = [].
Proof. by apply emptySectionsData_go_empty. Qed.

Lemma emptySectionsData_go_names secs : forall (sd : Obj.t (Obj.t string)) n,
  is_Some (Obj.get n (foldl (fun sd s => Obj.set (sec_name s) [] sd) sd secs)) ->
  is_Some (Obj.get n sd)
  \/ n <> "__proto__" /\ exists s, s ∈ secs /\ sec_name s = n.
Proof.
  induction secs as [|s l IH]; intros sd n; simpl; [by left|].
  intros [H|(Hn & s' & Hs' & <-)]%IH.
  - rewrite Obj_get_set in H.
    destruct (String.eqb (sec_name s) n) eqn:En; [|by left].
    destruct (String.eqb (sec_name s) "__proto__") eqn:Ep; [by left|].
    apply String.eqb_eq in En as <-. apply String.eqb_neq in Ep.
    right. split; [done|]. exists s. split; [left|done].
  - right. split; [done|]. exists s'. split; [by right|done].
Qed.

(** The two outcomes of placing a header without an exception: the
    sections object is left as it is, for [title] and [content] and for a
    header routed to a section named [__proto__]; or the value of the row
    is assigned in the object of the section. *)
Lemma placeHeader_Some secs cmap row sd h sd' :
  placeHeader secs cmap row sd h = Some sd' ->
  sd' = sd
  /\ (h = "title" \/ h = "content"
      \/ exists s, targetSection secs cmap h = Some s
                   /\ sec_name s = "__proto__")
  \/ h <> "title" /\ h <> "content"
     /\ exists s o,
         targetSection secs cmap h = Some s
         /\ sec_name s <> "__proto__"
         /\ Obj.get (sec_name s) sd = Some o
         /\ sd' = Obj.set (sec_name s)
                    (Obj.set h (default "" (row !! h)) o) sd.
Proof.
  unfold placeHeader.
  destruct (String.eqb h "title") eqn:Et.
  { apply String.eqb_eq in Et. intros [= <-]. left. split; [done|by left]. }
  destruct (String.eqb h "content") eqn:Ec.
  { apply String.eqb_eq in Ec. intros [= <-]. left.
    split; [done|by right; left]. }
  apply String.eqb_neq in Et, Ec. simpl.
  destruct (targetSection secs cmap h) as [s|]; [|done].
  destruct (String.eqb (sec_name s) "__proto__") eqn:Ep.
  - apply String.eqb_eq in Ep.
    assert (sd' = sd -> sd' = sd
            /\ (h = "title" \/ h = "content"
                \/ exists s0, Some s = Some s0 /\ sec_name s0 = "__proto__"))
      as Hleft.
    { intros ->. split; [done|]. right; right. by exists s. }
    destruct (Obj.get (sec_name s) sd) as [o|] eqn:Ho.
    + intros [= <-]. left. apply Hleft.
      unfold Obj.set at 1. by rewrite Ep, String.eqb_refl.
    + intros [= <-]. left. by apply Hleft.
  - apply String.eqb_neq in Ep.
    destruct (Obj.get (sec_name s) sd) as [o|] eqn:Ho; [|done].
    intros [= <-]. right. split; [done|]. split; [done|]. by exists s, o.
Qed.

Lemma placeHeader_keeps_placedAt secs cmap row sd h sd' h0 :
  placeHeader secs cmap row sd h = Some sd' ->
  placedAt secs cmap row sd h0 -> placedAt secs cmap row sd' h0.
Proof.
  intros [[-> _]|(Ht & Hc & s & o & Hs & Hp & Ho & ->)]%placeHeader_Some;
    [done|].
  intros (s0 & o0 & Hs0 & Ho0 & Hv0).
  destruct (decide (sec_name s = sec_name s0)) as [Hn|Hn].
  - exists s0, (Obj.set h (default "" (row !! h)) o).
    split; [done|]. rewrite <- Hn, Obj_get_set_eq by done. split; [done|].
    rewrite Hn, Ho0 in Ho. injection Ho as <-.
    rewrite Obj_get_set. destruct (_ && _)%bool eqn:E; [|done].
    apply andb_true_iff in E as [->%String.eqb_eq _]. done.
  - exists s0, o0. by rewrite Obj_get_set_ne.
Qed.

Lemma placeHeader_places secs cmap row sd h sd' :
  placeHeader secs cmap row sd h = Some sd' ->
  h <> "title" -> h <> "content" -> h <> "__proto__" ->
  routedToOwnKey secs cmap h ->
  placedAt secs cmap row sd' h.
Proof.
  intros [[_ Hskip]|(_ & _ & s & o & Hs & Hp & Ho & ->)]%placeHeader_Some
    Ht Hc Hproto Hown.
  - destruct Hskip as [->|[->|(s & Hs & Hname)]]; [done..|].
    by destruct (Hown s Hs).
  - exists s, (Obj.set h (default "" (row !! h)) o).
    by rewrite !Obj_get_set_eq.
Qed.

Lemma placeHeader_keeps_placedOnlyFrom secs cmap row headers sd h sd' :
  placeHeader secs cmap row sd h = Some sd' ->
  h ∈ headers ->
  placedOnlyFrom row headers sd -> placedOnlyFrom row headers sd'.
Proof.
  intros [[-> _]|(Ht & Hc & s & o & Hs & Hp & Ho & ->)]%placeHeader_Some;
    [done|].
  intros Hin Hsd n o' k v.
  destruct (decide (sec_name s = n)) as [<-|Hn].
  - rewrite Obj_get_set_eq by done. intros [= <-].
    rewrite Obj_get_set. destruct (_ && _)%bool eqn:E.
    + apply andb_true_iff in E as [->%String.eqb_eq Hk%negb_true_iff].
      apply String.eqb_neq in Hk. by intros [= <-].
    + by apply (Hsd (sec_name s)).
  - rewrite Obj_get_set_ne by done. apply Hsd.
Qed.

Lemma placeHeader_keeps_keys secs cmap row sd h sd' n :
  placeHeader secs cmap row sd h = Some sd' ->
  is_Some (Obj.get n sd') <-> is_Some (Obj.get n sd).
Proof.
  intros [[-> _]|(Ht & Hc & s & o & Hs & Hp & Ho & ->)]%placeHeader_Some;
    [done|].
  destruct (decide (sec_name s = n)) as [<-|Hn].
  - rewrite Obj_get_set_eq, Ho by done. split; by eexists.
  - by rewrite Obj_get_set_ne.
Qed.

Lemma placeHeaders_spec secs cmap row headers hs : forall sd sd',
  placeHeaders secs cmap row hs sd = Some sd' ->
  (forall h, h ∈ hs -> h ∈ headers) ->
  (forall n, is_Some (Obj.get n sd') <-> is_Some (Obj.get n sd))
  /\ (placedOnlyFrom row headers sd -> placedOnlyFrom row headers sd')
  /\ (forall h, placedAt secs cmap row sd h -> placedAt secs cmap row sd' h)
  /\ (forall h, h ∈ hs -> h <> "title" -> h <> "content" ->
             h <> "__proto__" -> routedToOwnKey secs cmap h ->
             placedAt secs cmap row sd' h).
Proof.
  induction hs as [|h0 rest IH]; intros sd sd' Hplace Hsub; simpl in Hplace.
  - injection Hplace as <-. split; [done|]. split; [done|]. split; [done|].
    intros h Hh. by apply not_elem_of_nil in Hh.
  - destruct (placeHeader secs cmap row sd h0) as [sd1|] eqn:H1; [|done].
    destruct (IH sd1 sd' Hplace) as (Hkeys & Honly & Hkeep & Hnew).
    { intros h Hh. apply Hsub. by right. }
    split; [|split; [|split]].
    + intros n. rewrite Hkeys. by eapply placeHeader_keeps_keys.
    + intros Hsd. apply Honly.
      eapply placeHeader_keeps_placedOnlyFrom; [done| |done].
      apply Hsub. left.
    + intros h Hh. apply Hkeep. by eapply placeHeader_keeps_placedAt.
    + intros h [->|Hh]%elem_of_cons Ht Hc Hp Hown; [|by apply Hnew].
      apply Hkeep. by eapply placeHeader_places.
Qed.

Lemma convertRows_lookup clock secs cmap pattern headers lines :
  forall i counts transformed t out,
    fst (convertRows clock secs cmap pattern headers lines i counts
           transformed t) = Some out ->
    exists new,
      out = transformed ++ new
      /\ forall j line,
          lines !! j = Some line ->
          exists r,
            new !! j = Some r
            /\ content r = default "" (rowOfLine headers line !! "content")
            /\ placeHeaders secs cmap (rowOfLine headers line) headers
                 (emptySectionsData secs) = Some (data r).
Proof.
  induction lines as [|line rest IH]; intros i counts transformed t out; simpl.
  - intros [= <-]. exists []. split; [by rewrite app_nil_r|done].
  - fold (rowOfLine headers line).
    destruct (placeHeaders _ _ _ _ _) as [sd|] eqn:Hsd; [|done].
    unfold bind.
    destruct (buildTitleFromPattern _ _ _ _ _ _) as [base t'].
    destruct (countTitle counts base) as [counts' finalTitle].
    intros (new & -> & Hnew)%IH.
    eexists (_ :: new). split; [by rewrite <- app_assoc|].
    intros [|j] line' Hline'.
    + injection Hline' as <-. eexists. by split; [done|split].
    + by apply Hnew.
Qed.

(** The record of a line in a successful conversion. *)
Lemma convertedRecord_sectioned :
  forall clock st text t headerLine rows,
    file st = Some text ->
    nonblankLines text = headerLine :: rows ->
    let st' := fst (processCSV clock st t) in
    let headers := headersOfLine headerLine in
    stype (status st') = "success" ->
    forall j line,
      rows !! j = Some line ->
      exists r,
        jsonData st' !! j = Some r
        /\ content r = default "" (rowOfLine headers line !! "content")
        /\ (forall h,
               h ∈ headers -> h <> "title" -> h <> "content" ->
               h <> "__proto__" ->
               routedToOwnKey (sections st) (columnMap st) h ->
               placedAt (sections st) (columnMap st) (rowOfLine headers line)
                 (data r) h)
        /\ placedOnlyFrom (rowOfLine headers line) headers (data r)
        /\ (forall n,
               is_Some (Obj.get n (data r))
               <-> n <> "__proto__"
                   /\ exists s, s ∈ sections st /\ sec_name s = n).
Proof.
  intros clock st text t headerLine rows Hfile Hlines st' headers Hok j line Hj.
  pose proof (processCSV_outcome clock st text t Hfile) as Hout.
  fold st' in Hout. rewrite Hlines in Hout. fold headers in Hout.
  destruct (fst (convertRows _ _ _ _ _ _ _ _ _ _)) as [transformed|] eqn:E;
    [|destruct Hout as [Hst _]; by rewrite Hst in Hok].
  destruct Hout as [_ ->].
  apply convertRows_lookup in E as (new & -> & Hnew).
  destruct (Hnew j line Hj) as (r & Hr & Hcontent & Hdata).
  exists r. split; [done|]. split; [done|].
  destruct (placeHeaders_spec (sections st) (columnMap st)
              (rowOfLine headers line) headers headers _ _ Hdata)
    as (Hkeys & Honly & _ & Hplaced); [done|].
  split; [done|]. split.
  - apply Honly. intros n o k v Ho.
    apply emptySectionsData_empty in Ho as ->. done.
  - intros n. rewrite Hkeys. split.
    + intros [H|H]%emptySectionsData_go_names; [by destruct H|done].
    + intros (Hn & s & Hs & <-). by apply emptySectionsData_covers.
Qed.



(** ** The flat row rebuilt at export *)

Lemma Obj_get_keys {V} k (v : V) o : Obj.get k o = Some v -> k ∈ Obj.keys o.
Proof.
  induction o as [|[k0 v0] o IH]; simpl; [done|].
  destruct (String.eqb k0 k) eqn:E.
  - apply String.eqb_eq in E as ->. intros _. left.
  - intros H. right. by apply IH.
Qed.

Lemma flatten_section_mono (sec : Obj.t string) ks : forall flat h,
  is_Some (flat !! h) ->
  is_Some (foldl (fun (flat : gmap string string) k =>
                    match Obj.get k sec with
                    | Some v => assignProp k v flat
                    | None => flat
                    end) flat ks !! h).
Proof.
  induction ks as [|k ks IH]; intros flat h Hh; simpl; [done|].
  apply IH. destruct (Obj.get k sec) as [v|]; [|done].
  unfold assignProp. destruct (String.eqb k "__proto__"); [done|].
  destruct (decide (k = h)) as [->|Hk].
  - rewrite lookup_insert_eq. by eexists.
  - by rewrite lookup_insert_ne.
Qed.

Lemma flatten_section_covers (sec : Obj.t string) ks : forall flat h,
  h ∈ ks -> h <> "__proto__" -> is_Some (Obj.get h sec) ->
  is_Some (foldl (fun (flat : gmap string string) k =>
                    match Obj.get k sec with
                    | Some v => assignProp k v flat
                    | None => flat
                    end) flat ks !! h).
Proof.
  induction ks as [|k ks IH]; intros flat h Hin Hproto Hsome; simpl.
  - by apply not_elem_of_nil in Hin.
  - apply elem_of_cons in Hin as [->|Hin]; [|by apply IH].
    apply flatten_section_mono. destruct Hsome as [v ->].
    rewrite assignProp_lookup_eq by done. by eexists.
Qed.

Lemma flatten_section_good (P : string -> string -> Prop)
    (sec : Obj.t string) ks :
  (forall k v, Obj.get k sec = Some v -> P k v) ->
  forall flat : gmap string string,
    (forall k v, flat !! k = Some v -> P k v) ->
    forall k v,
      foldl (fun (flat : gmap string string) k =>
               match Obj.get k sec with
               | Some v => assignProp k v flat
               | None => flat
               end) flat ks !! k = Some v ->
      P k v.
Proof.
  intros Hsec. induction ks as [|k0 ks IH]; intros flat Hflat; simpl; [done|].
  apply IH. destruct (Obj.get k0 sec) as [v0|] eqn:E; [|done].
  intros k v. unfold assignProp.
  destruct (String.eqb k0 "__proto__"); [apply Hflat|].
  destruct (decide (k0 = k)) as [<-|Hk].
  - rewrite lookup_insert_eq. intros [= <-]. by apply Hsec.
  - rewrite lookup_insert_ne by done. apply Hflat.
Qed.

Lemma flatten_data (P : string -> string -> Prop)
    (d : Obj.t (Obj.t string)) names :
  (forall n o k v, Obj.get n d = Some o -> Obj.get k o = Some v -> P k v) ->
  forall flat : gmap string string,
    (forall k v, flat !! k = Some v -> P k v) ->
    let flat' :=
      foldl (fun flat sectionName =>
               let sec := default [] (Obj.get sectionName d) in
               foldl (fun (flat : gmap string string) k =>
                        match Obj.get k sec with
                        | Some v => assignProp k v flat
                        | None => flat
                        end) flat (Obj.keys sec))
        flat names in
    (forall k v, flat' !! k = Some v -> P k v)
    /\ (forall h, is_Some (flat !! h) -> is_Some (flat' !! h))
    /\ (forall n o h,
           n ∈ names -> Obj.get n d = Some o -> h <> "__proto__" ->
           is_Some (Obj.get h o) ->
           is_Some (flat' !! h)).
Proof.
  intros Hd. induction names as [|n0 names IH]; intros flat Hflat; simpl.
  - split; [done|]. split; [done|]. intros n o h Hn. by apply not_elem_of_nil in Hn.
  - set (sec := default [] (Obj.get n0 d)).
    set (flat1 := foldl _ flat (Obj.keys sec)).
    assert (forall k v, flat1 !! k = Some v -> P k v) as Hflat1.
    { apply flatten_section_good; [|done]. intros k v. unfold sec.
      destruct (Obj.get n0 d) as [o|] eqn:E; [|done]. simpl. by apply (Hd n0). }
    destruct (IH flat1 Hflat1) as (Hgood & Hmono & Hcover).
    split; [done|]. split.
    + intros h Hh. apply Hmono. by apply flatten_section_mono.
    + intros n o h [->|Hn]%elem_of_cons Ho Hproto Hh; [|by eapply Hcover].
      apply Hmono. unfold flat1, sec. rewrite Ho. simpl.
      destruct Hh as [v Hv].
      apply flatten_section_covers; [by eapply Obj_get_keys|done|by eexists].
Qed.

Lemma reconstructRowFromItem_placed row headers r :
  placedOnlyFrom row headers (data r) ->
  reconstructRowFromItem r !! "title" = Some (title r)
  /\ reconstructRowFromItem r !! "content" = Some (content r)
  /\ (forall n o h,
         Obj.get n (data r) = Some o -> is_Some (Obj.get h o) ->
         reconstructRowFromItem r !! h = Some (default "" (row !! h)))
  /\ (forall k v,
         reconstructRowFromItem r !! k = Some v ->
         k = "title" \/ k = "content"
         \/ k ∈ headers /\ k <> "__proto__" /\ v = default "" (row !! k)).
Proof.
  intros Honly. unfold reconstructRowFromItem.
  destruct (flatten_data
              (fun k v => k ∈ headers /\ k <> "title" /\ k <> "content"
                          /\ k <> "__proto__" /\ v = default "" (row !! k))
              (data r) (Obj.keys (data r)) Honly ∅)
    as (Hgood & _ & Hcover); [done|].
  set (flat := foldl _ ∅ (Obj.keys (data r))) in *.
  change (assignProp "content" (content r) (assignProp "title" (title r) flat))
    with (<["content" := content r]> (<["title" := title r]> flat)).
  split; [|split; [|split]].
  - by rewrite lookup_insert_ne, lookup_insert_eq.
  - by rewrite lookup_insert_eq.
  - intros n o h Ho Hh.
    assert (h <> "__proto__") as Hproto.
    { destruct Hh as [v Hv]. by destruct (Honly n o h v Ho Hv) as (_ & _ & _ & ? & _). }
    destruct (Hcover n o h) as [v Hv]; [by eapply Obj_get_keys|done..|].
    destruct (Hgood h v Hv) as (_ & Ht & Hc & _ & ->).
    by rewrite !lookup_insert_ne.
  - intros k v.
    destruct (decide (k = "content")) as [->|Hc]; [by right; left|].
    destruct (decide (k = "title")) as [->|Ht]; [by left|].
    rewrite !lookup_insert_ne by done. intros Hv.
    destruct (Hgood k v Hv) as (Hin & _ & _ & Hp & ->). by right; right.
Qed.

(** X11.  The flat row that the CSV exporter rebuilds from a converted
    record reads back the parsed row: under every header other than
    [title], [content] and [__proto__] that is not routed to a section
    named [__proto__] it holds the value of the row of the record's line;
    under [title] and [content] it holds the title and the content of the
    record, the title being the generated one; and it holds no other key,
    in particular never [__proto__]. *)
Theorem reconstructRowFromItem_reads_back :
  forall clock st text t headerLine rows,
    file st = Some text ->
    nonblankLines text = headerLine :: rows ->
    let st' := fst (processCSV clock st t) in
    let headers := headersOfLine headerLine in
    stype (status st') = "success" ->
    forall j line,
      rows !! j = Some line ->
      exists r,
        jsonData st' !! j = Some r
        /\ reconstructRowFromItem r !! "title" = Some (title r)
        /\ reconstructRowFromItem r !! "content" = Some (content r)
        /\ (forall h,
               h ∈ headers -> h <> "title" -> h <> "content" ->
               h <> "__proto__" ->
               routedToOwnKey (sections st) (columnMap st) h ->
               reconstructRowFromItem r !! h
               = Some (default "" (rowOfLine headers line !! h)))
        /\ (forall k v,
               reconstructRowFromItem r !! k = Some v ->
               k = "title" \/ k = "content"
               \/ k ∈ headers /\ k <> "__proto__"
                  /\ v = default "" (rowOfLine headers line !! k)).
Proof.
  intros clock st text t headerLine rows Hfile Hlines st' headers Hok j line Hj.
  destruct (convertedRecord_sectioned clock st text t headerLine rows
              Hfile Hlines Hok j line Hj)
    as (r & Hr & _ & Hplaced & Honly & _).
  destruct (reconstructRowFromItem_placed _ _ r Honly)
    as (Htitle & Hcontent & Hread & Hall).
  exists r. split; [done|]. split; [done|]. split; [done|]. split; [|done].
  intros h Hh Ht Hc Hp Hown.
  destruct (Hplaced h Hh Ht Hc Hp Hown) as (s & o & _ & Ho & Hv).
  apply (Hread (sec_name s) o h Ho). by eexists.
Qed.

Lemma reconstructRowFromItem_reads_back_witness :
  exists r,
    jsonData convertedScenario !! 0 = Some r
    /\ reconstructRowFromItem r !! "name"
       = Some (default "" (rowOfLine ["name"; "age"] "Alice,30" !! "name")).
Proof.
  destruct (reconstructRowFromItem_reads_back sampleClock scenarioSelected
              (fileOfLines ["name,age"; "Alice,30"; "Bob,25"]) 0
              "name,age" ["Alice,30"; "Bob,25"] eq_refl eq_refl eq_refl
              0 "Alice,30" eq_refl) as (r & Hr & _ & _ & Hread & _).
  exists r. split; [exact Hr|].
  apply (Hread "name").
  - left.
  - discriminate.
  - discriminate.
  - discriminate.
  - intros s Hs. vm_compute in Hs. injection Hs as <-. discriminate.
Defined.

(** ** Title numbering *)

Lemma String_of_nat_inj n m : JS.String_of_nat n = JS.String_of_nat m -> n = m.
Proof.
  unfold JS.String_of_nat. intros H.
  apply (f_equal NilEmpty.uint_of_string) in H.
  rewrite !NilEmpty.usu in H. injection H as H.
  apply (f_equal Nat.of_uint) in H. by rewrite !Unsigned.of_to in H.
Qed.

Lemma countTitle_spec counts base :
  countTitle counts base
  = (if isPrototypeMember base then counts
     else <[base := S (default 0 (counts !! base))]> counts,
     numberedTitle base (default 0 (counts !! base))).
Proof.
  unfold countTitle, numberedTitle.
  destruct (isPrototypeMember base); [done|].
  destruct (counts !! base) as [[|c]|]; simpl; try done.
  by rewrite Nat.add_1_r.
Qed.

Lemma convertRows_titles clock secs cmap pattern headers lines :
  forall i counts transformed t out,
    fst (convertRows clock secs cmap pattern headers lines i counts
           transformed t) = Some out ->
    exists new,
      out = transformed ++ new
      /\ forall j base,
          baseTitles clock pattern headers lines i t !! j = Some base ->
          exists r,
            new !! j = Some r
            /\ title r
               = numberedTitle base
                   (default 0 (counts !! base)
                    + earlierOccurrences
                        (baseTitles clock pattern headers lines i t) j base).
Proof.
  induction lines as [|line rest IH]; intros i counts transformed t out;
    cbn [convertRows baseTitles].
  - intros [= <-]. exists []. split; [by rewrite app_nil_r|done].
  - fold (rowOfLine headers line).
    destruct (placeHeaders _ _ _ _ _) as [sd|]; [|done].
    unfold bind.
    destruct (buildTitleFromPattern _ _ _ _ _ _) as [base0 t'].
    pose proof (countTitle_spec counts base0) as Hcount.
    destruct (countTitle counts base0) as [counts' finalTitle].
    injection Hcount as -> ->.
    intros (new & -> & Hnew)%IH.
    eexists (_ :: new). split; [by rewrite <- app_assoc|].
    intros [|j] base Hbase.
    + injection Hbase as <-. eexists. split; [done|]. simpl.
      unfold earlierOccurrences. simpl. by rewrite Nat.add_0_r.
    + destruct (Hnew j base Hbase) as (r & Hr & Htitle).
      exists r. split; [done|]. rewrite Htitle.
      unfold earlierOccurrences. simpl. rewrite filter_cons.
      destruct (decide (base0 = base)) as [->|Hne].
      * unfold numberedTitle.
        destruct (isPrototypeMember base); [done|].
        rewrite lookup_insert_eq. simpl.
        by rewrite Nat.add_succ_r.
      * f_equal. f_equal.
        destruct (isPrototypeMember base0); [done|].
        by rewrite lookup_insert_ne.
Qed.

Lemma earlierOccurrences_lt bases j1 j2 base :
  j1 < j2 -> bases !! j1 = Some base ->
  earlierOccurrences bases j1 base < earlierOccurrences bases j2 base.
Proof.
  intros Hlt Hj1. unfold earlierOccurrences.
  assert (take j2 bases = take j1 bases ++ base :: take (j2 - S j1) (drop (S j1) bases))
    as ->.
  { rewrite <- (take_drop_middle bases j1 base Hj1) at 1.
    rewrite take_app_ge; rewrite length_take_le;
      try (apply lookup_lt_Some in Hj1; lia).
    f_equal. replace (j2 - j1) with (S (j2 - S j1)) by lia. done. }
  rewrite filter_app, filter_cons, decide_True by done.
  rewrite length_app. simpl. lia.
Qed.

Lemma numbered_title_neq base n m :
  n < m ->
  match n with 0 => base | S k => base +:+ "-" +:+ JS.String_of_nat (S k) end
  <> base +:+ "-" +:+ JS.String_of_nat m.
Proof.
  intros Hlt. destruct n as [|k].
  - intros H. apply (f_equal String.length) in H.
    rewrite !length_append in H. simpl in H. lia.
  - intros H. apply String.app_inj in H. apply String.app_inj in H.
    apply String_of_nat_inj in H. lia.
Qed.

(** The titles of a successful conversion against the base titles. *)
Lemma convertedTitles_numbered :
  forall clock st text t headerLine rows,
    file st = Some text ->
    nonblankLines text = headerLine :: rows ->
    let st' := fst (processCSV clock st t) in
    let bases :=
      baseTitles clock (titlePattern st) (headersOfLine headerLine) rows 1 t in
    stype (status st') = "success" ->
    (forall j base,
        bases !! j = Some base ->
        exists r,
          jsonData st' !! j = Some r
          /\ title r
             = if isPrototypeMember base then base
               else match earlierOccurrences bases j base with
                    | 0 => base
                    | S n => base +:+ "-" +:+ JS.String_of_nat (S n)
                    end)
    /\ (forall j1 j2 base r1 r2,
           j1 < j2 ->
           isPrototypeMember base = false ->
           bases !! j1 = Some base -> bases !! j2 = Some base ->
           jsonData st' !! j1 = Some r1 -> jsonData st' !! j2 = Some r2 ->
           title r1 <> title r2).
Proof.
  intros clock st text t headerLine rows Hfile Hlines st' bases Hok.
  pose proof (processCSV_outcome clock st text t Hfile) as Hout.
  fold st' in Hout. rewrite Hlines in Hout.
  destruct (fst (convertRows _ _ _ _ _ _ _ _ _ _)) as [transformed|] eqn:E;
    [|destruct Hout as [Hst _]; by rewrite Hst in Hok].
  destruct Hout as [_ Hdata].
  apply convertRows_titles in E as (new & -> & Hnew). fold bases in Hnew.
  simpl in Hdata.
  assert (forall j base,
             bases !! j = Some base ->
             exists r,
               jsonData st' !! j = Some r
               /\ title r = numberedTitle base (earlierOccurrences bases j base))
    as Hnum.
  { intros j base Hbase. rewrite Hdata.
    destruct (Hnew j base Hbase) as (r & Hr & Htitle). by exists r. }
  split.
  { intros j base Hbase. destruct (Hnum j base Hbase) as (r & Hr & Htitle).
    exists r. split; [done|]. rewrite Htitle. unfold numberedTitle.
    destruct (isPrototypeMember base); [done|].
    by destruct (earlierOccurrences bases j base). }
  intros j1 j2 base r1 r2 Hlt Hmember Hb1 Hb2 Hr1 Hr2.
  destruct (Hnum j1 base Hb1) as (r1' & Hr1' & Ht1).
  destruct (Hnum j2 base Hb2) as (r2' & Hr2' & Ht2).
  rewrite Hr1 in Hr1'. injection Hr1' as <-.
  rewrite Hr2 in Hr2'. injection Hr2' as <-.
  pose proof (earlierOccurrences_lt bases j1 j2 base Hlt Hb1) as Hocc.
  rewrite Ht1, Ht2. unfold numberedTitle. rewrite Hmember.
  destruct (earlierOccurrences bases j2 base) as [|m]; [lia|].
  by apply numbered_title_neq.
Qed.

(** X12.  In a conversion that reports success the title of a row is its
    base title when no earlier row of the pass has the same base title, and
    otherwise the base title followed by a hyphen and the number of such
    earlier rows, so that two rows with the same base title never carry
    the same title; except for a base title that is the name of a member
    of [Object.prototype], which is kept as it is on every row. *)
Theorem processCSV_titles_numbered :
  forall clock st text t headerLine rows,
    file st = Some text ->
    nonblankLines text = headerLine :: rows ->
    let st' := fst (processCSV clock st t) in
    let bases :=
      baseTitles clock (titlePattern st) (headersOfLine headerLine) rows 1 t in
    stype (status st') = "success" ->
    (forall j base,
        bases !! j = Some base ->
        exists r,
          jsonData st' !! j = Some r
          /\ title r
             = if isPrototypeMember base then base
               else match earlierOccurrences bases j base with
                    | 0 => base
                    | S n => base +:+ "-" +:+ JS.String_of_nat (S n)
                    end)
    /\ (forall j1 j2 base r1 r2,
           j1 < j2 ->
           isPrototypeMember base = false ->
           bases !! j1 = Some base -> bases !! j2 = Some base ->
           jsonData st' !! j1 = Some r1 -> jsonData st' !! j2 = Some r2 ->
           title r1 <> title r2).
Proof. exact convertedTitles_numbered. Qed.

Lemma processCSV_titles_numbered_witness :
  exists r,
    jsonData
      (fst (processCSV sampleClock
              (selected (fileOfLines ["title"; "a"; "b"; "a"; "a"]) "{title}")
              0)) !! 3 = Some r
    /\ title r = "a-2".
Proof.
  apply (proj1 (processCSV_titles_numbered sampleClock
                  (selected (fileOfLines ["title"; "a"; "b"; "a"; "a"])
                     "{title}")
                  (fileOfLines ["title"; "a"; "b"; "a"; "a"]) 0
                  "title" ["a"; "b"; "a"; "a"] eq_refl eq_refl eq_refl)
           3 "a").
  vm_compute. reflexivity.
Defined.

(** ** Patterns without tokens *)

Lemma match_tokens_go_no_brace s : forall skip,
  hasChar "{" s = false -> JS.match_tokens_go skip s = [].
Proof.
  induction s as [|c r IH]; intros skip Hs; [done|].
  simpl in Hs. apply orb_false_iff in Hs as [Hc Hr]. simpl.
  destruct skip as [|k]; [|by apply IH].
  rewrite Hc. by apply IH.
Qed.

Lemma buildTitleFromPattern_literal clock pattern row headers i t :
  hasChar "{" pattern = false ->
  JS.trim pattern <> "" ->
  buildTitleFromPattern clock pattern row headers i t = (pattern, t).
Proof.
  intros Hb Hne. unfold buildTitleFromPattern.
  destruct (JS.trim pattern); [done|].
  unfold JS.match_tokens. by rewrite match_tokens_go_no_brace.
Qed.

Lemma baseTitles_literal clock pattern headers lines : forall i t,
  hasChar "{" pattern = false ->
  JS.trim pattern <> "" ->
  baseTitles clock pattern headers lines i t
  = replicate (length lines) pattern.
Proof.
  induction lines as [|line rest IH]; intros i t Hb Hne; [done|].
  simpl. rewrite buildTitleFromPattern_literal by done.
  by rewrite IH.
Qed.

Lemma earlierOccurrences_replicate n j (base : string) :
  j <= n -> earlierOccurrences (replicate n base) j base = j.
Proof.
  intros Hj. unfold earlierOccurrences.
  rewrite take_replicate, Nat.min_l by done.
  induction j as [|j IH]; [done|]. simpl.
  rewrite filter_cons, decide_True by done. simpl. f_equal. apply IH. lia.
Qed.

(** X13.  A pattern without an opening brace, not blank, is a constant
    title: [buildTitleFromPattern] returns it verbatim for every row
    without reading the clock, and a conversion that reports success
    titles its first record with the pattern and the record at every later
    index [j] with the pattern, a hyphen and [j]; except that a pattern
    that is the name of a member of [Object.prototype] titles every record
    with the pattern alone. *)
Theorem processCSV_literal_pattern :
  forall clock st text t headerLine rows,
    hasChar "{" (titlePattern st) = false ->
    JS.trim (titlePattern st) <> "" ->
    (forall row headers i t',
        buildTitleFromPattern clock (titlePattern st) row headers i t'
        = (titlePattern st, t'))
    /\ (file st = Some text ->
        nonblankLines text = headerLine :: rows ->
        stype (status (fst (processCSV clock st t))) = "success" ->
        forall j,
          j < length rows ->
          title <$> jsonData (fst (processCSV clock st t)) !! j
          = Some (if isPrototypeMember (titlePattern st) then titlePattern st
                  else match j with
                       | 0 => titlePattern st
                       | S _ => titlePattern st +:+ "-" +:+ JS.String_of_nat j
                       end)).
Proof.
  intros clock st text t headerLine rows Hb Hne. split.
  { intros row headers i t'. by apply buildTitleFromPattern_literal. }
  intros Hfile Hlines Hok j Hj.
  destruct (convertedTitles_numbered clock st text t headerLine rows
              Hfile Hlines Hok) as [Hnum _].
  rewrite baseTitles_literal in Hnum by done.
  destruct (Hnum j (titlePattern st)) as (r & Hr & Ht).
  { apply lookup_replicate. by split. }
  rewrite Hr. simpl. rewrite Ht, earlierOccurrences_replicate by lia.
  by destruct j.
Qed.

Lemma processCSV_literal_pattern_witness :
  title <$> jsonData
              (fst (processCSV sampleClock
                      (selected (fileOfLines ["name"; "x"; "y"; "z"])
                         "constructor")
                      0)) !! 2
  = Some "constructor".
Proof.
  apply (proj2 (processCSV_literal_pattern sampleClock
                  (selected (fileOfLines ["name"; "x"; "y"; "z"])
                     "constructor")
                  (fileOfLines ["name"; "x"; "y"; "z"]) 0
                  "name" ["x"; "y"; "z"] eq_refl
                  ltac:(discriminate)) eq_refl eq_refl eq_refl 2).
  simpl. lia.
Defined.

(** ** Slugs *)

Lemma allChars_impl (P Q : ascii -> bool) s :
  (forall c, P c = true -> Q c = true) ->
  allChars P s = true -> allChars Q s = true.
Proof.
  intros HPQ. induction s as [|c r IH]; [done|]. simpl.
  intros [Hc Hr]%andb_true_iff. by rewrite (HPQ c Hc), IH.
Qed.

Lemma allChars_toLowerCase s :
  allChars (fun c => (JS.lower_char c =? c)%char) (JS.toLowerCase s) = true.
Proof.
  induction s as [|c r IH]; [done|]. simpl.
  by rewrite lower_char_idempotent, Ascii.eqb_refl, IH.
Qed.

Lemma allChars_remove_chars (P drop : ascii -> bool) s :
  allChars P s = true ->
  allChars (fun c => P c && negb (drop c))%bool (JS.remove_chars drop s) = true.
Proof.
  induction s as [|c r IH]; [done|]. simpl.
  intros [Hc Hr]%andb_true_iff.
  destruct (drop c) eqn:Hd; [by apply IH|]. simpl. by rewrite Hc, Hd, IH.
Qed.

Lemma allChars_trimStart P s :
  allChars P s = true -> allChars P (JS.trimStart s) = true.
Proof.
  induction s as [|c r IH]; [done|]. simpl.
  intros [Hc Hr]%andb_true_iff.
  destruct (JS.is_space c); [by apply IH|]. simpl. by rewrite Hc, Hr.
Qed.

Lemma allChars_trimEnd P s :
  allChars P s = true -> allChars P (JS.trimEnd s) = true.
Proof.
  induction s as [|c r IH]; [done|]. simpl.
  intros [Hc Hr]%andb_true_iff. specialize (IH Hr).
  destruct (JS.trimEnd r).
  - destruct (JS.is_space c); [done|]. simpl. by rewrite Hc.
  - simpl in *. by rewrite Hc, IH.
Qed.

Lemma allChars_replace_spaces P s : forall inrun,
  P "-"%char = true ->
  allChars P s = true ->
  allChars (fun c => P c && negb (JS.is_space c))%bool
    (JS.replace_spaces_go "-" inrun s) = true.
Proof.
  induction s as [|c r IH]; intros inrun Hh; [done|]. simpl.
  intros [Hc Hr]%andb_true_iff.
  destruct (JS.is_space c) eqn:Hs.
  - destruct inrun; [by apply IH|].
    rewrite append_cons, append_empty. simpl. rewrite Hh.
    change (JS.is_space "-") with false. simpl. by apply IH.
  - simpl. rewrite Hc, Hs. simpl. by apply IH.
Qed.

Lemma slug_char_check c :
  ((((JS.lower_char c =? c)%char
     && negb (negb (JS.is_word c || JS.is_space c || (c =? "-")%char)))
    || (c =? "-")%char)
   && negb (JS.is_space c))%bool = true ->
  isSlugChar c = true.
Proof. destruct c as [[] [] [] [] [] [] [] []]; vm_compute; done. Qed.

Lemma slugify_chars s : allChars isSlugChar (slugify s) = true.
Proof.
  unfold slugify, JS.replace_spaces, JS.trim.
  eapply allChars_impl; [apply slug_char_check|].
  apply (allChars_replace_spaces
           (fun c => ((JS.lower_char c =? c)%char
                      && negb (negb (JS.is_word c || JS.is_space c
                                     || (c =? "-")%char))
                      || (c =? "-")%char)%bool)); [done|].
  apply (allChars_impl
           (fun c => ((JS.lower_char c =? c)%char
                      && negb (negb (JS.is_word c || JS.is_space c
                                     || (c =? "-")%char)))%bool)).
  { intros c Hc. by rewrite Hc. }
  apply allChars_trimEnd, allChars_trimStart.
  apply (allChars_remove_chars (fun c => (JS.lower_char c =? c)%char)).
  apply allChars_toLowerCase.
Qed.

Lemma slug_char_facts c :
  isSlugChar c = true ->
  JS.lower_char c = c
  /\ negb (JS.is_word c || JS.is_space c || (c =? "-")%char) = false
  /\ JS.is_space c = false.
Proof. destruct c as [[] [] [] [] [] [] [] []]; vm_compute; done. Qed.

Lemma slug_fixed s :
  allChars isSlugChar s = true ->
  JS.toLowerCase s = s
  /\ JS.remove_chars
       (fun c => negb (JS.is_word c || JS.is_space c || (c =? "-")%char)) s = s
  /\ JS.trimStart s = s /\ JS.trimEnd s = s
  /\ forall inrun, JS.replace_spaces_go "-" inrun s = s.
Proof.
  induction s as [|c r IH]; [done|]. simpl.
  intros [Hc Hr]%andb_true_iff.
  destruct (slug_char_facts c Hc) as (Hl & Hk & Hs).
  destruct (IH Hr) as (IH1 & IH2 & _ & IH4 & IH5).
  rewrite Hl, Hk, Hs, IH1, IH2, IH4. repeat split; try done.
  - by destruct r.
  - intros inrun. by rewrite IH5.
Qed.

(** X14.  A slug is made of lower-case letters, digits, underscores and
    hyphens only, whatever the input, and [slugify] leaves a slug as it is:
    applying it twice is applying it once. *)
Theorem slugify_safe_and_idempotent :
  forall s,
    allChars isSlugChar (slugify s) = true
    /\ slugify (slugify s) = slugify s.
Proof.
  intros s. split; [apply slugify_chars|].
  destruct (slug_fixed (slugify s) (slugify_chars s))
    as (H1 & H2 & H3 & H4 & H5).
  unfold slugify at 1. unfold JS.trim, JS.replace_spaces.
  by rewrite H1, H2, H3, H4, H5.
Qed.

(** ** CSV exporter *)

Lemma csvFields_shape clock pattern headers item idx t :
  exists route p,
    fst (csvFields clock pattern headers item idx t)
    = [content item; title item;
       "/" +:+ content item +:+ "/" +:+ slugify route;
       toISOString (clock p);
       JSON.stringify (JSON.of_data (data item));
       "1"; ""; "en"; "";
       toISOString (clock (S p))].
Proof.
  unfold csvFields, bind, newDate, ret.
  destruct (buildTitleFromPattern _ _ _ _ _ _) as [route t1].
  by exists (if JS.nonblank route then route else title item), t1.
Qed.

Lemma csvRecordRows_lookup clock pattern headers items :
  forall idx t j item,
    items !! j = Some item ->
    exists t',
      fst (csvRecordRows clock pattern headers items idx t) !! j
      = Some (JS.join ","
                (map csvEscape
                   (fst (csvFields clock pattern headers item (idx + j) t')))).
Proof.
  induction items as [|item0 rest IH]; intros idx t j item Hj; [done|].
  simpl. unfold bind.
  destruct (csvFields clock pattern headers item0 idx t) as [fields t1] eqn:Ef.
  destruct (csvRecordRows clock pattern headers rest (S idx) t1)
    as [rows t2] eqn:Er.
  destruct j as [|j]; simpl.
  - injection Hj as <-. exists t. by rewrite Nat.add_0_r, Ef.
  - destruct (IH (S idx) t1 j item Hj) as [t' Ht'].
    exists t'. rewrite Er in Ht'. simpl in Ht'.
    by rewrite Nat.add_succ_r.
Qed.

(** X15.  [downloadCSV] hands over nothing and reports the blocking error
    when the record set or the section list is empty.  Otherwise it hands
    over a [text/csv] file of one header line and one line for every
    record, in the order of the records: the line of a record holds its
    content, its title, the route made of the content and a slug, a time
    stamp, the serialised [data], the constants [1], empty, [en], empty,
    and the next time stamp of the clock, each escaped. *)
Theorem downloadCSV_lines :
  forall clock st t,
    let result := fst (downloadCSV clock st t) in
    (jsonData st = [] \/ sections st = [] ->
     snd result = None
     /\ stype (status (fst result)) = "error"
     /\ is_Some (modalContent (fst result)))
    /\ (jsonData st <> [] /\ sections st <> [] ->
        exists lines,
          snd result
          = Some (mkDownload
                    ("exported-data-" +:+ fst (fileTimestamp clock t)
                     +:+ ".csv")
                    "text/csv" (JS.join (String JS.LF "") lines))
          /\ status (fst result) = mkStatus "success" "CSV download started."
          /\ length lines = S (length (jsonData st))
          /\ forall j item,
              jsonData st !! j = Some item ->
              exists route p,
                lines !! S j
                = Some (JS.join ","
                          (map csvEscape
                             [content item; title item;
                              "/" +:+ content item +:+ "/" +:+ slugify route;
                              toISOString (clock p);
                              JSON.stringify (JSON.of_data (data item));
                              "1"; ""; "en"; "";
                              toISOString (clock (S p))]))).
Proof.
  intros clock st t result. subst result. unfold downloadCSV. split.
  - intros Hbad.
    assert (canExport st = false) as ->.
    { apply not_true_is_false. rewrite canExport_iff. tauto. }
    simpl. repeat split. by eexists.
  - intros Hok. pose proof Hok as [Hdata _].
    apply canExport_iff in Hok. rewrite Hok.
    unfold fileTimestamp, bind, newDate, ret. cbn [negb].
    destruct (length (jsonData st) =? 0) eqn:El.
    { by apply Nat.eqb_eq, length_zero_iff_nil in El. }
    unfold csvRows, bind, ret.
    pose proof (csvRecordRows_escaped clock (titlePattern st)
                  (detectedHeaders st) (jsonData st) 0 (S t)) as [Hlen _].
    pose proof (csvRecordRows_lookup clock (titlePattern st)
                  (detectedHeaders st) (jsonData st) 0 (S t)) as Hlook.
    destruct (csvRecordRows clock _ _ _ 0 (S t)) as [rows t'].
    simpl in Hlen, Hlook. cbn [fst snd].
    eexists (_ :: rows). split; [done|]. split; [done|].
    split; [simpl; by rewrite Hlen|].
    intros j item Hj. destruct (Hlook j item Hj) as [tj Htj].
    destruct (csvFields_shape clock (titlePattern st) (detectedHeaders st)
                item j tj) as (route & p & Hshape).
    exists route, p. simpl. by rewrite Htj, Hshape.
Qed.

Lemma downloadCSV_lines_witness :
  snd (fst (downloadCSV sampleClock convertedWithoutSections 3)) = None
  /\ exists lines,
       snd (fst (downloadCSV sampleClock convertedScenario 3))
       = Some (mkDownload
                 ("exported-data-" +:+ fst (fileTimestamp sampleClock 3)
                  +:+ ".csv")
                 "text/csv" (JS.join (String JS.LF "") lines))
       /\ length lines = 3.
Proof.
  split.
  - apply (proj1 (downloadCSV_lines sampleClock convertedWithoutSections 3)).
    right. vm_compute. reflexivity.
  - destruct (proj2 (downloadCSV_lines sampleClock convertedScenario 3))
      as (lines & Hfile & _ & Hlen & _).
    + split; intros H; vm_compute in H; discriminate H.
    + exists lines. split; [exact Hfile|exact Hlen].
Defined.

(** ** Header resolver: the preview and the conversion *)

Lemma substring_all s : forall n,
  String.length s <= n -> String.substring 0 n s = s.
Proof.
  induction s as [|c r IH]; intros n Hn; [by destruct n|].
  destruct n as [|n]; simpl in *; [lia|]. rewrite IH; [done|lia].
Qed.

Lemma find_head_filter {A} (f : A -> bool) (l : list A) :
  find f l = head (List.filter f l).
Proof.
  induction l as [|a l IH]; [done|]. simpl. by destruct (f a).
Qed.

Lemma extractHeadersFromFile_cases text st :
  match nonblankLines text with
  | [] => extractHeadersFromFile text st = setDetectedHeaders [] st
  | headerLine :: _ =>
      extractHeadersFromFile text st
      = setSections
          (match sections st with [] => [mainSection] | prev => prev end)
          (setColumnMap ∅ (setDetectedHeaders (headersOfLine headerLine) st))
  end.
Proof.
  unfold extractHeadersFromFile, nonblankLines.
  rewrite find_head_filter.
  by destruct (List.filter _ _).
Qed.




(** ** Time stamps *)

Lemma allChars_append P s1 s2 :
  allChars P (s1 +:+ s2) = (allChars P s1 && allChars P s2)%bool.
Proof.
  induction s1 as [|c r IH]; [done|]. rewrite append_cons. simpl.
  by rewrite IH, andb_assoc.
Qed.

Lemma String_of_nat_digits n :
  allChars Obj.is_digit (JS.String_of_nat n) = true.
Proof.
  unfold JS.String_of_nat.
  by induction (Nat.to_uint n) as [|d IH|d IH|d IH|d IH|d IH|d IH|d IH|d IH|d IH|d IH].
Qed.

Lemma padStart2_digits s :
  allChars Obj.is_digit s = true ->
  allChars Obj.is_digit (JS.padStart2 s) = true.
Proof.
  intros Hs. unfold JS.padStart2.
  destruct (String.length s) as [|[|n]]; [| |done];
    by rewrite allChars_append, Hs.
Qed.

Lemma padStart2_length_below_100 n :
  n < 100 -> String.length (JS.padStart2 (JS.String_of_nat n)) = 2.
Proof.
  intros Hn.
  assert (forallb (fun n => String.length (JS.padStart2 (JS.String_of_nat n))
                            =? 2) (seq 0 100) = true) as Hall
    by (vm_compute; reflexivity).
  rewrite forallb_forall in Hall.
  apply Nat.eqb_eq, Hall, in_seq. lia.
Qed.

Lemma String_of_nat_length_four_digits n :
  1000 <= n < 10 * 1000 -> String.length (JS.String_of_nat n) = 4.
Proof.
  intros Hn.
  assert (forallb (fun n => String.length (JS.String_of_nat n) =? 4)
            (seq 1000 (9 * 1000)) = true) as Hall
    by (vm_compute; reflexivity).
  rewrite forallb_forall in Hall.
  apply Nat.eqb_eq, Hall, in_seq. lia.
Qed.

(** X17.  For a date whose year has four digits and whose month, day,
    hours, minutes and seconds lie in their calendar ranges, the time stamp
    of the [timestamp] token has exactly fourteen characters, all of them
    decimal digits. *)
Theorem formatTimestampForPattern_fourteen_digits :
  forall date,
    1000 <= getFullYear date < 10 * 1000 ->
    getMonth date < 12 ->
    1 <= getDate date <= 31 ->
    getHours date < 24 ->
    getMinutes date < 60 ->
    getSeconds date < 60 ->
    String.length (formatTimestampForPattern date) = 14
    /\ allChars Obj.is_digit (formatTimestampForPattern date) = true.
Proof.
  intros date Hy Hmo Hd Hh Hmi Hs. unfold formatTimestampForPattern. split.
  - rewrite !length_append, String_of_nat_length_four_digits by done.
    rewrite !padStart2_length_below_100 by lia. done.
  - rewrite !allChars_append, String_of_nat_digits.
    by rewrite !padStart2_digits by apply String_of_nat_digits.
Qed.

Lemma formatTimestampForPattern_fourteen_digits_witness :
  String.length (formatTimestampForPattern (sampleClock 0)) = 14
  /\ allChars Obj.is_digit (formatTimestampForPattern (sampleClock 0)) = true.
Proof.
  apply formatTimestampForPattern_fourteen_digits; simpl; lia.
Defined.

(** ** File selection *)

Lemma substring_skip a : forall n s,
  String.substring (String.length a) n (a +:+ s) = String.substring 0 n s.
Proof.
  induction a as [|c r IH]; intros n s; [done|].
  rewrite append_cons. simpl. apply IH.
Qed.

Lemma endsWith_append a suffix : endsWith suffix (a +:+ suffix) = true.
Proof.
  unfold endsWith. rewrite length_append.
  apply andb_true_iff. split; [apply Nat.leb_le; lia|].
  replace (String.length a + String.length suffix - String.length suffix)
    with (String.length a) by lia.
  rewrite substring_skip, substring_all by done. apply String.eqb_refl.
Qed.

Lemma extractHeadersFromFile_keeps text st :
  file (extractHeadersFromFile text st) = file st
  /\ status (extractHeadersFromFile text st) = status st
  /\ jsonData (extractHeadersFromFile text st) = jsonData st
  /\ titlePattern (extractHeadersFromFile text st) = titlePattern st.
Proof.
  pose proof (extractHeadersFromFile_cases text st) as H.
  destruct (nonblankLines _); by rewrite H.
Qed.

(** X18.  File selection validates before it touches the state: a file
    that is neither of type [text/csv] nor named with the ending [.csv], in
    any letter case, changes nothing but the status, which reports the
    error.  An accepted file is stored and the status cleared, after which
    a conversion no longer asks for a file; the records of an earlier
    conversion and the title pattern stay as they were. *)
Theorem handleFileSelection_validates :
  forall f st,
    let st' := handleFileSelection (Some f) st in
    (isCSV f = false ->
     st' = setStatus (mkStatus "error" "Please upload a valid CSV file.") st)
    /\ (isCSV f = true ->
        file st' = Some (file_text f)
        /\ status st' = mkStatus "" ""
        /\ jsonData st' = jsonData st
        /\ titlePattern st' = titlePattern st
        /\ forall clock t,
             message (status (fst (processCSV clock st' t)))
             <> "Please select a file first.")
    /\ (forall base extension,
           file_name f = base +:+ extension ->
           JS.toLowerCase extension = ".csv" ->
           isCSV f = true).
Proof.
  intros f st st'. subst st'. unfold handleFileSelection.
  split; [|split].
  - by intros ->.
  - intros ->. simpl.
    destruct (extractHeadersFromFile_keeps (file_head f)
                (setStatus (mkStatus "" "") (setFile (Some (file_text f)) st)))
      as (Hfile & Hstatus & Hdata & Hpat).
    rewrite Hfile, Hstatus, Hdata, Hpat. repeat split; try done.
    intros clock t.
    set (st1 := extractHeadersFromFile _ _) in *.
    pose proof (processCSV_outcome clock st1 (file_text f) t Hfile) as Hout.
    destruct (nonblankLines (file_text f)); [by destruct Hout as [-> _]|].
    destruct (fst (convertRows _ _ _ _ _ _ _ _ _ _));
      destruct Hout as [-> _]; simpl; [|done].
    intros H. apply (f_equal (String.substring 0 1)) in H.
    vm_compute in H. discriminate.
  - intros base extension Hname Hext. unfold isCSV.
    rewrite Hname, toLowerCase_append, Hext, endsWith_append.
    apply orb_true_r.
Qed.

Lemma handleFileSelection_validates_witness :
  handleFileSelection (Some (mkFile "" "notes.txt" "a,b" "a,b"))
    convertedScenario
  = setStatus (mkStatus "error" "Please upload a valid CSV file.")
      convertedScenario
  /\ isCSV (mkFile "application/octet-stream" "Export.CSV" "a,b" "a,b") = true.
Proof.
  split.
  - apply (proj1 (handleFileSelection_validates
                    (mkFile "" "notes.txt" "a,b" "a,b") convertedScenario)).
    vm_compute. reflexivity.
  - apply (proj2 (proj2 (handleFileSelection_validates
                           (mkFile "application/octet-stream" "Export.CSV"
                              "a,b" "a,b") initialState)) "Export" ".CSV").
    + reflexivity.
    + vm_compute. reflexivity.
Defined.

(** ** The default pattern *)

Lemma buildRow_values headers values h v :
  buildRow headers values !! h = Some v ->
  exists i, v = default "" (values !! i).
Proof.
  induction headers as [|x l IH] using rev_ind; [done|].
  rewrite buildRow_snoc. unfold assignProp.
  destruct (String.eqb x "__proto__"); [done|].
  destruct (decide (x = h)) as [->|Hx].
  - rewrite lookup_insert_eq. intros [= <-]. by eexists.
  - by rewrite lookup_insert_ne.
Qed.

Lemma rowOfLine_trimmed headers line h v :
  rowOfLine headers line !! h = Some v -> JS.trim v = v.
Proof.
  intros [i ->]%buildRow_values.
  destruct (fitValues _ _ !! i) as [x|] eqn:Hx; [|done]. simpl.
  unfold fitValues in Hx. apply list_elem_of_lookup_2, elem_of_take in Hx.
  destruct Hx as (j & Hj & _).
  apply list_elem_of_lookup_2, elem_of_app in Hj as [Hj|Hj].
  - destruct (parseCSVLine_nonempty_trimmed line) as [_ Hall].
    rewrite Forall_forall in Hall. by apply Hall.
  - by apply elem_of_replicate in Hj as [-> _].
Qed.

Lemma buildTitleFromPattern_default clock row headers i t :
  buildTitleFromPattern clock "{title}" row headers i t
  = (JS.trim (default "" (row !! "title")), t).
Proof.
  unfold buildTitleFromPattern.
  change (JS.trim "{title}") with "{title}".
  change (JS.match_tokens "{title}") with ["{title}"].
  cbn [substituteTokens]. unfold bind, substituteToken, bind.
  change (JS.slice_1_m1 "{title}") with "title".
  unfold resolveToken. change (JS.trim "title") with "title".
  change (String.eqb "title" "title") with true. cbv iota. unfold ret.
  generalize (JS.trim (default "" (row !! "title"))). intros v.
  unfold JS.split_join. simpl. by rewrite append_empty_r.
Qed.

Lemma baseTitles_default clock headers lines : forall i t,
  baseTitles clock "{title}" headers lines i t
  = map (fun line => default "" (rowOfLine headers line !! "title")) lines.
Proof.
  induction lines as [|line rest IH]; intros i t; [done|].
  cbn [baseTitles map]. rewrite buildTitleFromPattern_default, IH. f_equal.
  destruct (rowOfLine headers line !! "title") as [v|] eqn:Hv; [|done].
  simpl. by apply rowOfLine_trimmed in Hv.
Qed.

(** X19.  Under the default pattern [{title}] the base title of a row is
    its field under the [title] header, so a conversion that reports
    success titles the records by the title column with repeats numbered,
    a field that is the name of a member of [Object.prototype] being kept
    as it is on every row; and when the file has no [title] column every
    base title is empty: the first record is titled by the empty string
    and the record at every later index [j] by a hyphen and [j]. *)
Theorem processCSV_default_pattern :
  forall clock st text t headerLine rows,
    titlePattern st = "{title}" ->
    file st = Some text ->
    nonblankLines text = headerLine :: rows ->
    let st' := fst (processCSV clock st t) in
    let headers := headersOfLine headerLine in
    let bases :=
      map (fun line => default "" (rowOfLine headers line !! "title")) rows in
    stype (status st') = "success" ->
    (forall j base,
        bases !! j = Some base ->
        title <$> jsonData st' !! j
        = Some (if isPrototypeMember base then base
                else match earlierOccurrences bases j base with
                     | 0 => base
                     | S n => base +:+ "-" +:+ JS.String_of_nat (S n)
                     end))
    /\ ("title" ∉ headers ->
        forall j,
          j < length rows ->
          title <$> jsonData st' !! j
          = Some (match j with
                  | 0 => ""
                  | S _ => "-" +:+ JS.String_of_nat j
                  end)).
Proof.
  intros clock st text t headerLine rows Hpat Hfile Hlines st' headers bases Hok.
  destruct (convertedTitles_numbered clock st text t headerLine rows
              Hfile Hlines Hok) as [Hnum _].
  rewrite Hpat, baseTitles_default in Hnum. fold headers bases in Hnum.
  assert (forall j base,
             bases !! j = Some base ->
             title <$> jsonData st' !! j
             = Some (if isPrototypeMember base then base
                     else match earlierOccurrences bases j base with
                          | 0 => base
                          | S n => base +:+ "-" +:+ JS.String_of_nat (S n)
                          end)) as Hbases.
  { intros j base Hbase. destruct (Hnum j base Hbase) as (r & Hr & Ht).
    fold st' in Hr. rewrite Hr. simpl. by rewrite Ht. }
  split; [done|].
  intros Hno j Hj.
  assert (bases = replicate (length rows) "") as Hall.
  { unfold bases. clear -Hno. induction rows as [|line rest IH]; [done|].
    simpl. rewrite IH. f_equal. unfold rowOfLine.
    by rewrite buildRow_lookup_absent. }
  rewrite (Hbases j "").
  - change (isPrototypeMember "") with false. cbv iota.
    rewrite Hall, earlierOccurrences_replicate by lia. by destruct j.
  - rewrite Hall. apply lookup_replicate. by split.
Qed.

Lemma processCSV_default_pattern_witness :
  title <$> jsonData
              (fst (processCSV sampleClock
                      (selected
                         (fileOfLines ["name,age"; "Alice,30"; "Bob,25"])
                         "{title}") 0)) !! 1
  = Some "-1".
Proof.
  apply (proj2 (processCSV_default_pattern sampleClock
                  (selected (fileOfLines ["name,age"; "Alice,30"; "Bob,25"])
                     "{title}")
                  (fileOfLines ["name,age"; "Alice,30"; "Bob,25"]) 0
                  "name,age" ["Alice,30"; "Bob,25"]
                  eq_refl eq_refl eq_refl eq_refl)).
  - intros H. vm_compute in H.
    repeat (apply elem_of_cons in H as [H|H]; [discriminate H|]).
    by apply not_elem_of_nil in H.
  - simpl. lia.
Defined.

(** ** Bare header tokens *)

Lemma find_no_lowercased target (headers : list string) :
  Forall (fun h => JS.toLowerCase h = h) headers ->
  target ∉ headers ->
  find (fun h => String.eqb (JS.toLowerCase h) target) headers = None.
Proof.
  induction 1 as [|h rest Hh _ IH]; intros Hin; [done|].
  apply not_elem_of_cons in Hin as [Hne Hin]. simpl. rewrite Hh.
  destruct (String.eqb h target) eqn:E; [|by apply IH].
  by apply String.eqb_eq in E.
Qed.

(** X20.  A token that is none of [title], [index] and [timestamp] and
    does not begin with [column:] or [column_] is read as a header name,
    in any letter case.  When the lower-cased name is a header it resolves
    to the field of the row under it, if the row has one there or the name
    is no name of a member of [Object.prototype]; for a header that the row
    lacks and that names such a member, to the text of the inherited
    member.  When it is no header it resolves to the empty string.  The
    clock is not read in any case. *)
Theorem resolveToken_bare_header :
  forall clock token row headers i t,
    let name := JS.trim token in
    let key := JS.toLowerCase name in
    name <> "title" -> name <> "index" -> name <> "timestamp" ->
    JS.startsWith "column:" key = false ->
    JS.startsWith "column_" key = false ->
    Forall (fun h => JS.toLowerCase h = h) headers ->
    (name <> "" -> key ∈ headers ->
     is_Some (row !! key) \/ isPrototypeMember key = false ->
     resolveToken clock token row headers i t
     = (default "" (row !! key), t))
    /\ (forall text,
           key ∈ headers -> row !! key = None ->
           inheritedText key = Some text ->
           resolveToken clock token row headers i t = (text, t))
    /\ (key ∉ headers ->
        resolveToken clock token row headers i t = ("", t)).
Proof.
  intros clock token row headers i t name key Ht Hi Hts Hc1 Hc2 Hlower.
  unfold resolveToken. fold name. fold key.
  apply String.eqb_neq in Ht, Hi, Hts. rewrite Ht, Hi, Hts, Hc1, Hc2.
  split; [|split].
  - intros Hne Hin Hown. rewrite (find_lowercased _ _ Hlower Hin).
    pose proof (toLowerCase_nonempty _ Hne) as Hne'.
    unfold ret. by rewrite valueOfFound_own.
  - intros text Hin Hnone Htext. rewrite (find_lowercased _ _ Hlower Hin).
    unfold ret, valueOfFound. rewrite Hnone, Htext.
    by destruct key.
  - intros Hnotin. by rewrite (find_no_lowercased _ _ Hlower Hnotin).
Qed.

Lemma resolveToken_bare_header_witness :
  resolveToken sampleClock " Age " (rowOfLine ["name"; "age"] "Alice,30")
    ["name"; "age"] 1 0
  = (default "" (rowOfLine ["name"; "age"] "Alice,30" !! "age"), 0)
  /\ resolveToken sampleClock "__proto__"
       (rowOfLine ["__proto__"; "age"] "Alice,30") ["__proto__"; "age"] 1 0
     = ("[object Object]", 0)
  /\ resolveToken sampleClock "city" (rowOfLine ["name"; "age"] "Alice,30")
       ["name"; "age"] 1 0
     = ("", 0).
Proof.
  split; [|split].
  - apply (proj1 (resolveToken_bare_header sampleClock " Age "
                    (rowOfLine ["name"; "age"] "Alice,30") ["name"; "age"]
                    1 0 ltac:(discriminate) ltac:(discriminate)
                    ltac:(discriminate) eq_refl eq_refl
                    ltac:(repeat constructor))).
    + discriminate.
    + right. left.
    + right. reflexivity.
  - apply (proj1 (proj2 (resolveToken_bare_header sampleClock "__proto__"
                           (rowOfLine ["__proto__"; "age"] "Alice,30")
                           ["__proto__"; "age"]
                           1 0 ltac:(discriminate) ltac:(discriminate)
                           ltac:(discriminate) eq_refl eq_refl
                           ltac:(repeat constructor)))).
    + left.
    + reflexivity.
    + reflexivity.
  - apply (proj2 (proj2 (resolveToken_bare_header sampleClock "city"
                           (rowOfLine ["name"; "age"] "Alice,30")
                           ["name"; "age"]
                           1 0 ltac:(discriminate) ltac:(discriminate)
                           ltac:(discriminate) eq_refl eq_refl
                           ltac:(repeat constructor)))).
    intros H. vm_compute in H.
    repeat (apply elem_of_cons in H as [H|H]; [discriminate H|]).
    by apply not_elem_of_nil in H.
Defined.
